(* ===================================================================== *)
(* build_powerplants.py: merge of custom power plants, correction of the *)
(* nuclear records and assignment of every plant to the nearest          *)
(* low-voltage substation of its country.                                *)
(* ===================================================================== *)

From Stdlib Require Import QArith Ascii.
From stdpp Require Import base list strings pretty.

Local Open Scope string_scope.
Local Open Scope list_scope.

(* --------------------------------------------------------------------- *)
(* Data model                                                            *)
(* --------------------------------------------------------------------- *)

(** A cell of a numeric column of the plant table.  pandas keeps years and
    capacities as floats, the missing value being NaN; the database may
    also deliver a year as text.  Numbers are rationals here: the code
    only stores, copies and overwrites them. *)
Inductive cell : Type :=
  | NaN
  | Num (q : Q)
  | Str (s : string).

(** One row of the working table [ppl].  [index] is the row label of the
    DataFrame; text columns that may be missing are options; [others]
    holds the columns the script never looks at. *)
Record Plant : Type := mkPlant
  { index : Z;
    Name : option string;
    Fueltype : option string;
    Technology : option string;
    Country : string;
    Capacity : cell;
    DateIn : cell;
    lat : option Q;
    lon : option Q;
    bus : option string;
    others : list (string * string) }.

(** One row of [n.buses]. *)
Record Bus : Type := mkBus
  { bus_id : string;
    country : string;
    x : Q;
    y : Q;
    substation_lv : bool }.

Definition set_index (i : Z) (r : Plant) : Plant :=
  mkPlant i (Name r) (Fueltype r) (Technology r) (Country r) (Capacity r)
          (DateIn r) (lat r) (lon r) (bus r) (others r).

Definition set_Fueltype (v : option string) (r : Plant) : Plant :=
  mkPlant (index r) (Name r) v (Technology r) (Country r) (Capacity r)
          (DateIn r) (lat r) (lon r) (bus r) (others r).

Definition set_Technology (v : option string) (r : Plant) : Plant :=
  mkPlant (index r) (Name r) (Fueltype r) v (Country r) (Capacity r)
          (DateIn r) (lat r) (lon r) (bus r) (others r).

Definition set_Capacity (v : cell) (r : Plant) : Plant :=
  mkPlant (index r) (Name r) (Fueltype r) (Technology r) (Country r) v
          (DateIn r) (lat r) (lon r) (bus r) (others r).

Definition set_DateIn (v : cell) (r : Plant) : Plant :=
  mkPlant (index r) (Name r) (Fueltype r) (Technology r) (Country r)
          (Capacity r) v (lat r) (lon r) (bus r) (others r).

Definition set_bus (v : option string) (r : Plant) : Plant :=
  mkPlant (index r) (Name r) (Fueltype r) (Technology r) (Country r)
          (Capacity r) (DateIn r) (lat r) (lon r) v (others r).

(** [series == "text"] on a column with missing values: NaN compares
    unequal to everything. *)
Definition opt_is (v : string) (o : option string) : bool :=
  match o with
  | Some s => String.eqb s v
  | None => false
  end.

(** A value of the configuration keys [powerplants_filter] and
    [custom_powerplants]: something falsy, the boolean [True], or a query
    string, which [DataFrame.query] turns into a row predicate. *)
Inductive config_value : Type :=
  | CfgFalsy
  | CfgTrue
  | CfgQuery (q : Plant -> bool).

(* --------------------------------------------------------------------- *)
(* Selecting and assigning rows by position                              *)
(* --------------------------------------------------------------------- *)

(** Row labels are unique whenever the script selects with [.loc], so a
    label stands for exactly one position; the index objects of the
    script ([ppl_i], [nuc.index]) are lists of positions. *)

Fixpoint query_from {A : Type} (P : A -> bool) (k : nat) (df : list A)
  : list nat :=
  match df with
  | [] => []
  | r :: df' =>
      if P r then k :: query_from P (S k) df' else query_from P (S k) df'
  end.

(** [df.query(P).index] *)
Definition query_index {A : Type} (P : A -> bool) (df : list A) : list nat :=
  query_from P 0 df.

(** [df.loc[idx]] *)
Definition loc {A : Type} (df : list A) (idx : list nat) : list A :=
  omap (fun i => df !! i) idx.

(** [df.loc[idx, col] = vals], the column being written by [set]. *)
Definition loc_set {A V : Type} (set : V -> A -> A)
    (idx : list nat) (vals : list V) (df : list A) : list A :=
  foldl (fun acc iv => alter (set (snd iv)) (fst iv) acc) df (zip idx vals).

(* --------------------------------------------------------------------- *)
(* add_custom_powerplants                                                *)
(* --------------------------------------------------------------------- *)

Definition reset_index (df : list Plant) : list Plant :=
  imap (fun i r => set_index (Z.of_nat i) r) df.

Definition has_duplicates (labels : list Z) : bool :=
  negb (bool_decide (NoDup labels)).

(** [df.append(other, sort=False, ignore_index=.., verify_integrity=..)]:
    pandas builds the new row axis first; with [ignore_index] it is the
    fresh range 0..n-1 and the integrity check of the concatenated labels
    is never reached.  [None] is the raised [ValueError]. *)
Definition append (ignore_index verify_integrity : bool)
    (df other : list Plant) : option (list Plant) :=
  if ignore_index then Some (reset_index (df ++ other))
  else if verify_integrity && has_duplicates (map index (df ++ other))
       then None
       else Some (df ++ other).

(** [custom_ppl_query] is the configuration value and [custom_powerplants]
    the table read from the custom CSV file. *)
Definition add_custom_powerplants (custom_ppl_query : config_value)
    (custom_powerplants : list Plant) (ppl : list Plant)
  : option (list Plant) :=
  match custom_ppl_query with
  | CfgFalsy => Some ppl
  | CfgTrue => append true true ppl custom_powerplants
  | CfgQuery q => append true true ppl (List.filter q custom_powerplants)
  end.

(* --------------------------------------------------------------------- *)
(* correct_nuclear_data                                                  *)
(* --------------------------------------------------------------------- *)

(** Case folding of one character.  A Python string is held as the bytes
    of its UTF-8 encoding; the letters A-Z fold to a-z and every other
    byte is compared as it is. *)
Definition lower (c : ascii) : ascii :=
  let n := N_of_ascii c in
  if ((65 <=? n) && (n <=? 90))%N then ascii_of_N (n + 32) else c.

Fixpoint starts_with_nocase (pat s : string) : bool :=
  match pat, s with
  | EmptyString, _ => true
  | String a pat', String b s' =>
      Ascii.eqb (lower a) (lower b) && starts_with_nocase pat' s'
  | String _ _, EmptyString => false
  end.

Fixpoint contains_nocase (pat s : string) : bool :=
  starts_with_nocase pat s
  || match s with
     | EmptyString => false
     | String _ s' => contains_nocase pat s'
     end.

(** [series.str.contains(pat, case=False, na=False)] on one cell.  The
    keys of the two tables below contain no character that is special in
    a regular expression, so the search is a plain substring search. *)
Definition str_contains (pat : string) (name : option string) : bool :=
  match name with
  | Some s => contains_nocase pat s
  | None => false
  end.

(** The two dictionaries, as the lists of their items: a dictionary is
    iterated in the order in which its keys were written. *)
Definition YearCommercial : list (string * Z) :=
  [ ("St laurent", 1983); ("Gravelines", 1985); ("Paluel", 1986);
    ("Penly", 1992); ("Nogent", 1989); ("Golfech", 1994);
    ("St alban", 1987); ("Belleville", 1989); ("Blayais", 1983);
    ("Cruas", 1985); ("Fessenheim", 1978); ("Flamanville", 2005);
    ("Dampierre", 1981); ("Chinon", 1988); ("Bugey", 1980);
    ("Cattenom", 1992); ("Chooz", 2000); ("Civaux", 2002);
    ("Tricastin", 1981); ("Dukovany", 1987); ("Temelín", 2003);
    ("Bohunice", 1985); ("Mochovce", 2000); ("Krško", 1983);
    ("Ringhals", 1983); ("Oskarshamn", 1985); ("Forsmark", 1985);
    ("Olkiluoto", 2019) ]%Z.

(** The dictionary [Capacity] of the source; the name is taken by the
    column. *)
Definition CapacityTable : list (string * Z) :=
  [ ("St laurent", 1830); ("Gravelines", 5460); ("Paluel", 5320);
    ("Penly", 2660); ("Nogent", 2620); ("Golfech", 2620);
    ("St alban", 2670); ("Belleville", 2620); ("Blayais", 3640);
    ("Cruas", 3660); ("Fessenheim", 0); ("Flamanville", 4260);
    ("Dampierre", 3560); ("Chinon", 3620); ("Bugey", 3580);
    ("Cattenom", 5200); ("Chooz", 3000); ("Civaux", 2990);
    ("Tricastin", 3660); ("Ringhals", 2166); ("Oskarshamn", 1400);
    ("Forsmark", 3269); ("Dukovany", 1878); ("Temelín", 2006);
    ("Bohunice", 943); ("Mochovce", 872); ("Krško", 688);
    ("Olkiluoto", 1600); ("Brokdorf", 0); ("Emsland", 0); ("Grohnde", 0);
    ("Gundremmingen", 0); ("Isar", 0); ("Neckarwestheim", 0);
    ("Philippsburg", 0); ("Biblis", 0); ("Unterweser", 0);
    ("Grafenrheinfeld", 0); ("Kruemmel", 0) ]%Z.

(** A row of the frame [nuc]: the columns Name, DateIn and Capacity. *)
Record NucRow : Type := mkNuc
  { nuc_Name : option string;
    nuc_DateIn : cell;
    nuc_Capacity : cell }.

Definition is_nuclear (r : Plant) : bool := opt_is "Nuclear" (Fueltype r).

Definition nuc_view (r : Plant) : NucRow :=
  mkNuc (Name r) (DateIn r) (Capacity r).

(** [pd.DataFrame(ppl.loc[ppl.Fueltype == "Nuclear",
    ["Name", "DateIn", "Capacity"]])]: a copy that keeps the positions of
    its rows in [ppl] as its index. *)
Definition nuc_frame (ppl : list Plant) : list (nat * NucRow) :=
  let nuc_index := query_index is_nuclear ppl in
  zip nuc_index (map nuc_view (loc ppl nuc_index)).

(** The column a correction loop writes, in [nuc] and in [ppl]. *)
Record Column : Type := mkColumn
  { nuc_get : NucRow -> cell;
    nuc_set : cell -> NucRow -> NucRow;
    ppl_set : cell -> Plant -> Plant }.

Definition col_DateIn : Column :=
  mkColumn nuc_DateIn
           (fun v n => mkNuc (nuc_Name n) v (nuc_Capacity n))
           set_DateIn.

Definition col_Capacity : Column :=
  mkColumn nuc_Capacity
           (fun v n => mkNuc (nuc_Name n) (nuc_DateIn n) v)
           set_Capacity.

(** The variables a correction loop works on, and what it has printed. *)
Record State : Type := mkState
  { st_nuc : list (nat * NucRow);
    st_ppl : list Plant;
    st_out : list string }.

Definition not_found (name : string) : string :=
  "'" +:+ name +:+ "' was not found in given DataFrame.".

(** [frame.loc[mask, col] = v] *)
Definition mask_set {A : Type} (set : A -> A) (mask : list bool)
    (frame : list (nat * A)) : list (nat * A) :=
  zip_with (fun (b : bool) row => if b then (fst row, set (snd row)) else row)
           mask frame.

(** One turn of a correction loop, for the entry [name: value]. *)
Definition correction_step (col : Column) (st : State) (e : string * Z)
  : State :=
  let name := fst e in
  let value := Num (inject_Z (snd e)) in
  let name_match_b :=
    map (fun row => str_contains name (nuc_Name (snd row))) (st_nuc st) in
  let nuc' :=
    if existsb id name_match_b
    then mask_set (nuc_set col value) name_match_b (st_nuc st)
    else st_nuc st in
  let out' :=
    if existsb id name_match_b then st_out st
    else st_out st ++ [not_found name] in
  let ppl' :=
    loc_set (ppl_set col) (map fst nuc')
            (map (fun row => nuc_get col (snd row)) nuc') (st_ppl st) in
  mkState nuc' ppl' out'.

(** Returns the corrected table and the lines printed on the way. *)
Definition correct_nuclear_data (ppl : list Plant)
  : list Plant * list string :=
  let st := mkState (nuc_frame ppl) ppl [] in
  let st := fold_left (correction_step col_DateIn) YearCommercial st in
  let st := fold_left (correction_step col_Capacity) CapacityTable st in
  (st_ppl st, st_out st).

(* --------------------------------------------------------------------- *)
(* The nearest-neighbour index                                           *)
(* --------------------------------------------------------------------- *)

(** Squared Euclidean distance of two points of the plane; the point that
    minimises it minimises the distance.  Coordinates are rationals, a
    missing coordinate of a plant (NaN) is [None]. *)
Definition sqdist (p q : Q * Q) : Q :=
  ((fst p - fst q) * (fst p - fst q) + (snd p - snd q) * (snd p - snd q))%Q.

(** What the script relies on of [cKDTree(data).query(x)[1]], for one
    query point: the position in [data] of a nearest point; a missing
    neighbour is reported as the position [len(data)], which is what an
    empty tree and a query point with a NaN coordinate give.  Which of
    several nearest points is taken is left to the index. *)
Definition kdtree_contract
    (query : list (Q * Q) -> option Q * option Q -> nat) : Prop :=
  (forall data q,
      data = [] \/ fst q = None \/ snd q = None ->
      query data q = length data)
  /\ (forall data a b,
         data <> [] ->
         exists p,
           data !! query data (Some a, Some b) = Some p
           /\ forall p', In p' data -> (sqdist p (a, b) <= sqdist p' (a, b))%Q).

(** An index that scans [data] and keeps the first nearest point. *)
Fixpoint nearest_from (q : Q * Q) (best : nat) (dbest : Q) (k : nat)
    (data : list (Q * Q)) : nat :=
  match data with
  | [] => best
  | p :: data' =>
      if Qle_bool dbest (sqdist p q)
      then nearest_from q best dbest (S k) data'
      else nearest_from q k (sqdist p q) (S k) data'
  end.

Definition scan_query (data : list (Q * Q)) (q : option Q * option Q) : nat :=
  match q, data with
  | (Some a, Some b), p :: data' =>
      nearest_from (a, b) 0 (sqdist p (a, b)) 1 data'
  | _, _ => length data
  end.

(* --------------------------------------------------------------------- *)
(* The script: preparing the table and attaching the buses               *)
(* --------------------------------------------------------------------- *)

(** [series.unique()]: the values in the order of their first occurrence. *)
Fixpoint unique (l : list string) : list string :=
  match l with
  | [] => []
  | a :: l' => a :: List.filter (fun b => negb (String.eqb a b)) (unique l')
  end.

Definition elem (c : string) (l : list string) : bool :=
  existsb (String.eqb c) l.

Record Config : Type := mkConfig
  { powerplants_filter : config_value;
    custom_powerplants : config_value }.

(** ['Fueltype not in ["Solar", "Wind"] and Country in @countries'] *)
Definition base_query (countries : list string) (r : Plant) : bool :=
  negb (opt_is "Solar" (Fueltype r) || opt_is "Wind" (Fueltype r))
  && elem (Country r) countries.

Definition replace_text (old new : string) (o : option string)
  : option string :=
  match o with
  | Some s => if String.eqb s old then Some new else Some s
  | None => None
  end.

Definition replace_cell (old new : string) (c : cell) : cell :=
  match c with
  | Str s => if String.eqb s old then Str new else Str s
  | _ => c
  end.

(** The [replace] and the two [assign] of the chain, on one row. *)
Definition normalize (r : Plant) : Plant :=
  let r := set_Technology (replace_text "Steam Turbine" "OCGT" (Technology r)) r in
  let r :=
    if opt_is "Natural Gas" (Fueltype r)
    then set_Fueltype
           (match replace_text "Steam Turbine" "OCGT" (Technology r) with
            | Some t => Some t
            | None => Some "OCGT"
            end) r
    else r in
  if String.eqb (Country r) "SE" && opt_is "Nuclear" (Fueltype r)
  then r
  else set_DateIn (replace_cell "2006" "1985" (DateIn r)) r.

(** The table handed to the matching loop and the lines printed by
    [correct_nuclear_data]; [powerplants] is what
    [pm.powerplants(...).powerplant.convert_country_to_alpha2()] returned
    and [custom_csv] the content of the custom file.  [None] is a raised
    exception. *)
Definition prepare (cfg : Config) (buses : list Bus)
    (powerplants custom_csv : list Plant)
  : option (list Plant * list string) :=
  let countries := unique (map country buses) in
  let ppl := map normalize (List.filter (base_query countries) powerplants) in
  let ppl :=
    match powerplants_filter cfg with
    | CfgQuery q => List.filter q ppl
    | _ => ppl
    end in
  ppl ← add_custom_powerplants (custom_powerplants cfg) custom_csv ppl;
  Some (correct_nuclear_data ppl).

(** The two calls of [logging.warning]. *)
Inductive warning : Type :=
  | NoPowerplantsKnown (cntries : list string)
  | NoCloseBus (count : nat).


Definition bus_isnull (r : Plant) : bool :=
  match bus r with
  | None => true
  | Some _ => false
  end.

Section Matching.

(** [kdtree.query(x)[1]] for one query point [x = (lon, lat)]. *)
Variable kdtree_query : list (Q * Q) -> option Q * option Q -> nat.

(** [n.buses.query('substation_lv and country == @c')] *)
Definition substations (buses : list Bus) (c : string) : list Bus :=
  List.filter (fun b => substation_lv b && String.eqb (country b) c) buses.

(** [index[positions]]: an [IndexError] past the end. *)
Definition take {A : Type} (l : list A) (positions : list nat)
  : option (list A) :=
  mapM (fun i => l !! i) positions.

(** The body of the loop, for the country [c]. *)
Definition match_country (buses : list Bus) (ppl : list Plant) (c : string)
  : option (list Plant) :=
  let substation_i := map bus_id (substations buses c) in
  let data := map (fun b => (x b, y b)) (substations buses c) in
  let ppl_i := query_index (fun r => String.eqb (Country r) c) ppl in
  let tree_i :=
    map (fun r => kdtree_query data (lon r, lat r)) (loc ppl ppl_i) in
  values ← take (map Some substation_i ++ [None]) tree_i;
  Some (loc_set set_bus ppl_i values ppl).

Fixpoint match_countries (buses : list Bus) (ppl : list Plant)
    (countries : list string) : option (list Plant) :=
  match countries with
  | [] => Some ppl
  | c :: countries' =>
      ppl' ← match_country buses ppl c;
      match_countries buses ppl' countries'
  end.

(** The loop over the countries and the two warnings after it.
    [bus_column] tells whether the table arrives with a column [bus] (the
    custom file may bring one); a turn of the loop creates the column, and
    [ppl["bus"]] raises a [KeyError] when no turn has run on a table
    without it. *)
Definition attach_buses (buses : list Bus) (bus_column : bool)
    (ppl : list Plant) : option (list Plant * list warning) :=
  let countries := unique (map country buses) in
  let cntries_without_ppl :=
    List.filter (fun c => negb (elem c (unique (map Country ppl))))
                countries in
  ppl ← match_countries buses ppl countries;
  let w1 :=
    match cntries_without_ppl with
    | [] => []
    | _ :: _ => [NoPowerplantsKnown cntries_without_ppl]
    end in
  let bus_null_b := map bus_isnull ppl in
  let w2 :=
    if existsb id bus_null_b
    then [NoCloseBus (length (List.filter id bus_null_b))]
    else [] in
  let has_bus :=
    match countries with
    | [] => bus_column
    | _ :: _ => true
    end in
  if has_bus then Some (ppl, w1 ++ w2) else None.

(** The whole script: the final table, the lines printed by
    [correct_nuclear_data] (the two printed tables are left out) and the
    warnings.  [custom_bus_column] tells whether the custom file has a
    column [bus]; the database has none. *)
Definition build_powerplants (cfg : Config) (buses : list Bus)
    (powerplants custom_csv : list Plant) (custom_bus_column : bool)
  : option (list Plant * list string * list warning) :=
  prepared ← prepare cfg buses powerplants custom_csv;
  let bus_column :=
    match custom_powerplants cfg with
    | CfgFalsy => false
    | _ => custom_bus_column
    end in
  matched ← attach_buses buses bus_column (fst prepared);
  Some (fst matched, snd prepared, snd matched).

End Matching.


(* --------------------------------------------------------------------- *)
(* Row-wise reading of the correction loops                              *)
(* --------------------------------------------------------------------- *)

(** Whether some Nuclear row of [ppl] has a name that contains [name]. *)
Definition any_match (name : string) (ppl : list Plant) : bool :=
  existsb (fun r => is_nuclear r && str_contains name (Name r)) ppl.

(** What one turn of a correction loop does to one row of [ppl]. *)
Definition row_step (col : Column) (e : string * Z) (r : Plant) : Plant :=
  if is_nuclear r && str_contains (fst e) (Name r)
  then ppl_set col (Num (inject_Z (snd e))) r
  else r.

(** What one turn of a correction loop does to one row of [nuc]. *)
Definition nuc_step (col : Column) (e : string * Z) (n : NucRow) : NucRow :=
  if str_contains (fst e) (nuc_Name n)
  then nuc_set col (Num (inject_Z (snd e))) n
  else n.

(** What a whole correction loop does to one row. *)
Definition row_pass (col : Column) (entries : list (string * Z)) (r : Plant)
  : Plant :=
  fold_left (fun r e => row_step col e r) entries r.

(** The lines a correction loop prints for the table [ppl]. *)
Definition unmatched (entries : list (string * Z)) (ppl : list Plant)
  : list string :=
  map (fun e => not_found (fst e))
      (List.filter (fun e => negb (any_match (fst e) ppl)) entries).

Definition known_column (col : Column) : Prop :=
  col = col_DateIn \/ col = col_Capacity.

(** The value of the last entry of a table whose key occurs in [name]. *)
Definition last_value (entries : list (string * Z)) (name : option string)
  : option Z :=
  fold_left (fun acc e => if str_contains (fst e) name then Some (snd e) else acc)
            entries None.

(** [r'] is [r] up to the columns DateIn and Capacity. *)
Definition same_but_DateIn_Capacity (r r' : Plant) : Prop :=
  index r' = index r /\ Name r' = Name r /\ Fueltype r' = Fueltype r
  /\ Technology r' = Technology r /\ Country r' = Country r
  /\ lat r' = lat r /\ lon r' = lon r /\ bus r' = bus r
  /\ others r' = others r.

(** Writing an optional value into a column of a row. *)
Definition overwrite (col : Column) (v : option Z) (r : Plant) : Plant :=
  match v with
  | Some z => ppl_set col (Num (inject_Z z)) r
  | None => r
  end.

(** What [correct_nuclear_data] does to one row. *)
Definition correct_row (r : Plant) : Plant :=
  row_pass col_Capacity CapacityTable (row_pass col_DateIn YearCommercial r).

(** The rows of the examples. *)
Definition fessenheim : Plant :=
  mkPlant 7 (Some "Fessenheim Unit 1") (Some "Nuclear") (Some "Steam Turbine")
          "FR" (Num (1760 # 1)) (Num (1977 # 1)) (Some (4791 # 100))
          (Some (756 # 100)) None [].

Definition coal_plant : Plant :=
  mkPlant 3 (Some "Fessenheim coal") (Some "Hard Coal") None
          "FR" (Num (100 # 1)) (Num (1990 # 1)) (Some (45 # 1))
          (Some (5 # 1)) None [].

(* --------------------------------------------------------------------- *)
(* Row-wise reading of the matching loop                                 *)
(* --------------------------------------------------------------------- *)

(** The entry of [substation_i.append(pd.Index([np.nan]))] the loop picks
    for the row [r] in the turn of the country [c]: the position comes
    from the index, the entry past the substations is the missing value. *)
Definition assigned_bus
    (kdtree_query : list (Q * Q) -> option Q * option Q -> nat)
    (buses : list Bus) (c : string) (r : Plant) : option string :=
  default None
    ((map Some (map bus_id (substations buses c)) ++ [None])
       !! kdtree_query (map (fun b => (x b, y b)) (substations buses c))
                       (lon r, lat r)).

(** What one turn of the loop does to one row. *)
Definition match_row
    (kdtree_query : list (Q * Q) -> option Q * option Q -> nat)
    (buses : list Bus) (c : string) (r : Plant) : Plant :=
  if String.eqb (Country r) c
  then set_bus (assigned_bus kdtree_query buses c r) r
  else r.

(** What the loop over [countries] does to one row. *)
Definition matched_row
    (kdtree_query : list (Q * Q) -> option Q * option Q -> nat)
    (buses : list Bus) (countries : list string) (r : Plant) : Plant :=
  if elem (Country r) countries
  then set_bus (assigned_bus kdtree_query buses (Country r) r) r
  else r.

(** The buses and plants of the examples. *)
Definition S1 : Bus := mkBus "S1" "FR" (501 # 100) (4501 # 100) true.
Definition S2 : Bus := mkBus "S2" "FR" (10 # 1) (50 # 1) true.
Definition S3 : Bus := mkBus "S3" "DE" (5 # 1) (45 # 1) true.
Definition S4 : Bus := mkBus "S4" "ES" (5 # 1) (45 # 1) false.

Definition plant_at (c : string) (lon lat : option Q) : Plant :=
  mkPlant 0 (Some "Plant") (Some "Hard Coal") None c (Num (100 # 1))
          (Num (1990 # 1)) lat lon None [].

(* --------------------------------------------------------------------- *)
(* Reading of the merge                                                  *)
(* --------------------------------------------------------------------- *)

(** The rows of the custom table that the configuration value lets in. *)
Definition custom_rows (custom_ppl_query : config_value)
    (custom_powerplants : list Plant) : list Plant :=
  match custom_ppl_query with
  | CfgFalsy => []
  | CfgTrue => custom_powerplants
  | CfgQuery q => List.filter q custom_powerplants
  end.

(* --------------------------------------------------------------------- *)
(* Reading of the chain on the database and of the frames                *)
(* --------------------------------------------------------------------- *)

(** The rows of the database that reach the merge: the table [ppl] of the
    script before [add_custom_powerplants]. *)
Definition base_rows (cfg : Config) (buses : list Bus)
    (powerplants : list Plant) : list Plant :=
  let ppl :=
    map normalize
        (List.filter (base_query (unique (map country buses))) powerplants) in
  match powerplants_filter cfg with
  | CfgQuery q => List.filter q ppl
  | _ => ppl
  end.

(** [r'] is [r] up to the columns Technology, Fueltype and DateIn. *)
Definition same_but_labels_DateIn (r r' : Plant) : Prop :=
  index r' = index r /\ Name r' = Name r /\ Country r' = Country r
  /\ Capacity r' = Capacity r /\ lat r' = lat r /\ lon r' = lon r
  /\ bus r' = bus r /\ others r' = others r.

(** [r'] is [r] up to the column bus. *)
Definition same_but_bus (r r' : Plant) : Prop :=
  index r' = index r /\ Name r' = Name r /\ Fueltype r' = Fueltype r
  /\ Technology r' = Technology r /\ Country r' = Country r
  /\ Capacity r' = Capacity r /\ DateIn r' = DateIn r
  /\ lat r' = lat r /\ lon r' = lon r /\ others r' = others r.


(** The columns of a row that no stage after the chain on the database
    writes: all but the label, DateIn, Capacity and bus. *)
Definition untouched_columns (r : Plant)
  : option string * option string * option string * string
    * option Q * option Q * list (string * string) :=
  (Name r, Fueltype r, Technology r, Country r, lat r, lon r, others r).

(* ===================================================================== *)
(* The name search is substring containment up to case                   *)
(* ===================================================================== *)

Section NameSearch.
Implicit Types (pat s pre mid post : string).



End NameSearch.

(* ===================================================================== *)
(* Selecting and assigning by position                                   *)
(* ===================================================================== *)

Section Positions.
Context {A : Type}.
Implicit Types (P : A -> bool) (df pre : list A).

Lemma length_query_from P k df :
  length (query_from P k df) = length (List.filter P df).
Proof.
  revert k. induction df as [|r df IH]; intros k; simpl; [done|].
  destruct (P r); simpl; by rewrite IH.
Qed.

Lemma loc_query_from P df pre :
  loc (pre ++ df) (query_from P (length pre) df) = List.filter P df.
Proof.
  revert pre. induction df as [|r df IH]; intros pre; simpl; [done|].
  assert (Hshift : loc (pre ++ r :: df) (query_from P (S (length pre)) df)
                   = List.filter P df).
  { specialize (IH (pre ++ [r])).
    rewrite length_app, Nat.add_1_r, <- app_assoc in IH. exact IH. }
  destruct (P r); [|exact Hshift].
  unfold loc in *. cbn [omap list_omap].
  rewrite list_lookup_middle by done. by rewrite Hshift.
Qed.

Lemma loc_query_index P df : loc df (query_index P df) = List.filter P df.
Proof. exact (loc_query_from P df []). Qed.

Lemma loc_set_query_from {V : Type} (set : V -> A -> A) (f : A -> V)
    P df pre :
  loc_set set (query_from P (length pre) df) (map f (List.filter P df))
          (pre ++ df)
  = pre ++ map (fun r => if P r then set (f r) r else r) df.
Proof.
  revert pre. induction df as [|r df IH]; intros pre; simpl; [done|].
  destruct (P r) eqn:HP; simpl.
  - unfold loc_set in *. simpl.
    replace (alter (set (f r)) (length pre) (pre ++ r :: df))
      with ((pre ++ [set (f r) r]) ++ df).
    + specialize (IH (pre ++ [set (f r) r])).
      rewrite length_app, Nat.add_1_r in IH. rewrite IH.
      by rewrite <- app_assoc.
    + rewrite <- app_assoc. simpl.
      pose proof (alter_app_r (set (f r)) pre (r :: df) 0) as Halter.
      rewrite Nat.add_0_r in Halter. by rewrite Halter.
  - specialize (IH (pre ++ [r])).
    rewrite length_app, Nat.add_1_r, <- !app_assoc in IH. exact IH.
Qed.

(** Writing a column at the rows selected by [P], from values computed
    row by row, is a map over the table. *)
Lemma loc_set_query_index {V : Type} (set : V -> A -> A) (f : A -> V) P df :
  loc_set set (query_index P df) (map f (List.filter P df)) df
  = map (fun r => if P r then set (f r) r else r) df.
Proof. exact (loc_set_query_from set f P df []). Qed.

Lemma query_from_map (g : A -> A) P k df :
  (forall r, P (g r) = P r) ->
  query_from P k (map g df) = query_from P k df.
Proof.
  intros Hg. revert k. induction df as [|r df IH]; intros k; simpl; [done|].
  rewrite Hg. destruct (P r); by rewrite IH.
Qed.

Lemma filter_map_preserved (g : A -> A) P df :
  (forall r, P (g r) = P r) ->
  List.filter P (map g df) = map g (List.filter P df).
Proof.
  intros Hg. induction df as [|r df IH]; simpl; [done|].
  rewrite Hg. destruct (P r); simpl; by rewrite IH.
Qed.

Lemma existsb_map_filter (g : A -> bool) P df :
  existsb id (map g (List.filter P df)) = existsb (fun r => P r && g r) df.
Proof.
  induction df as [|r df IH]; simpl; [done|].
  destruct (P r); simpl; by rewrite IH.
Qed.

End Positions.

Section Zip.
Context {A B : Type}.
Implicit Types (l : list A) (k : list B).

Lemma map_fst_zip l k : length l = length k -> map fst (zip l k) = l.
Proof.
  revert k. induction l as [|a l IH]; intros [|b k] Hlen; simpl in *;
    try done.
  f_equal. apply IH. lia.
Qed.

Lemma map_snd_zip {C : Type} (g : B -> C) l k :
  length l = length k -> map (fun row => g (snd row)) (zip l k) = map g k.
Proof.
  revert k. induction l as [|a l IH]; intros [|b k] Hlen; simpl in *;
    try done.
  f_equal. apply IH. lia.
Qed.

Lemma map_zip_snd (g : B -> B) l k :
  map (fun row => (fst row, g (snd row))) (zip l k) = zip l (map g k).
Proof.
  revert k. induction l as [|a l IH]; intros [|b k]; simpl; try done.
  f_equal. apply IH.
Qed.

Lemma mask_set_map (set : B -> B) (m : B -> bool) (frame : list (nat * B)) :
  mask_set set (map (fun row => m (snd row)) frame) frame
  = map (fun row => (fst row, if m (snd row) then set (snd row) else snd row))
        frame.
Proof.
  unfold mask_set. induction frame as [|[a b] frame IH]; simpl; [done|].
  rewrite IH. by destruct (m b).
Qed.

Lemma existsb_false_map (set : B -> B) (m : B -> bool)
    (frame : list (nat * B)) :
  existsb id (map (fun row => m (snd row)) frame) = false ->
  frame
  = map (fun row => (fst row, if m (snd row) then set (snd row) else snd row))
        frame.
Proof.
  induction frame as [|[a b] frame IH]; simpl; [done|].
  unfold id at 1. destruct (m b); simpl; [done|].
  intros Hrest. f_equal. by apply IH.
Qed.

End Zip.

(* ===================================================================== *)
(* correct_nuclear_data                                                  *)
(* ===================================================================== *)

Section Correction.
Implicit Types (ppl : list Plant) (st : State) (e : string * Z)
         (col : Column) (r : Plant).

Lemma nuc_frame_eq ppl :
  nuc_frame ppl
  = zip (query_index is_nuclear ppl)
        (map nuc_view (List.filter is_nuclear ppl)).
Proof. unfold nuc_frame. by rewrite loc_query_index. Qed.

Lemma nuc_frame_lengths ppl :
  length (query_index is_nuclear ppl)
  = length (List.filter is_nuclear ppl).
Proof. unfold query_index. by rewrite length_query_from. Qed.

Lemma is_nuclear_row_step col e r :
  known_column col -> is_nuclear (row_step col e r) = is_nuclear r.
Proof.
  intros [-> | ->]; unfold row_step;
    by destruct (is_nuclear r && str_contains (fst e) (Name r)).
Qed.

Lemma Name_row_step col e r :
  known_column col -> Name (row_step col e r) = Name r.
Proof.
  intros [-> | ->]; unfold row_step;
    by destruct (is_nuclear r && str_contains (fst e) (Name r)).
Qed.

Lemma any_match_row_step col e name ppl :
  known_column col ->
  any_match name (map (row_step col e) ppl) = any_match name ppl.
Proof.
  intros Hcol. unfold any_match.
  induction ppl as [|r ppl IH]; simpl; [done|].
  by rewrite IH, is_nuclear_row_step, Name_row_step.
Qed.

Lemma write_back_row col e r :
  known_column col ->
  (if is_nuclear r
   then ppl_set col (nuc_get col (nuc_step col e (nuc_view r))) r
   else r)
  = row_step col e r.
Proof.
  intros [-> | ->]; unfold row_step, nuc_step; destruct r as [? ? ? ? ? ? ? ? ? ? ?];
    simpl; destruct (is_nuclear _); simpl; try done;
    by destruct (str_contains _ _).
Qed.

Lemma nuc_view_row_step col e r :
  known_column col ->
  is_nuclear r = true ->
  nuc_view (row_step col e r) = nuc_step col e (nuc_view r).
Proof.
  intros [-> | ->] Hnuc; unfold row_step, nuc_step; rewrite Hnuc; simpl;
    by destruct (str_contains _ _).
Qed.

(** One turn of a loop keeps [nuc] the Nuclear slice of [ppl], rewrites
    [ppl] row by row and prints exactly when no Nuclear row matches. *)
Lemma correction_step_spec col st e :
  known_column col ->
  st_nuc st = nuc_frame (st_ppl st) ->
  st_nuc (correction_step col st e) = nuc_frame (st_ppl (correction_step col st e))
  /\ st_ppl (correction_step col st e) = map (row_step col e) (st_ppl st)
  /\ st_out (correction_step col st e)
     = if any_match (fst e) (st_ppl st)
       then st_out st
       else st_out st ++ [not_found (fst e)].
Proof.
  intros Hcol Hinv.
  set (ppl := st_ppl st) in *.
  assert (Hany :
    existsb id (map (fun row : nat * NucRow =>
                       str_contains (fst e) (nuc_Name (snd row))) (st_nuc st))
    = any_match (fst e) ppl).
  { rewrite Hinv, nuc_frame_eq.
    rewrite (map_snd_zip (fun n => str_contains (fst e) (nuc_Name n)))
      by (rewrite length_map; apply nuc_frame_lengths).
    rewrite map_map. apply existsb_map_filter. }
  assert (Hnuc : st_nuc (correction_step col st e)
                 = zip (query_index is_nuclear ppl)
                       (map (fun r => nuc_step col e (nuc_view r))
                            (List.filter is_nuclear ppl))).
  { transitivity (map (fun row => (fst row, nuc_step col e (snd row))) (st_nuc st)).
    - unfold correction_step; simpl.
      destruct (existsb id _) eqn:Hex.
      + apply (mask_set_map (nuc_set col (Num (inject_Z (snd e))))
                            (fun n => str_contains (fst e) (nuc_Name n))).
      + by apply (existsb_false_map (nuc_set col (Num (inject_Z (snd e))))
                            (fun n => str_contains (fst e) (nuc_Name n))).
    - by rewrite Hinv, nuc_frame_eq, map_zip_snd, map_map. }
  assert (Hppl : st_ppl (correction_step col st e)
                 = map (row_step col e) ppl).
  { change (st_ppl (correction_step col st e))
      with (loc_set (ppl_set col)
              (map fst (st_nuc (correction_step col st e)))
              (map (fun row => nuc_get col (snd row))
                   (st_nuc (correction_step col st e))) ppl).
    rewrite Hnuc.
    rewrite map_fst_zip, (map_snd_zip (nuc_get col)), map_map;
      try (rewrite length_map; apply nuc_frame_lengths).
    rewrite (loc_set_query_index (ppl_set col)
               (fun r => nuc_get col (nuc_step col e (nuc_view r)))).
    apply map_ext. intros r. by apply write_back_row. }
  split; [|split]; [| exact Hppl |].
  - rewrite Hnuc, Hppl, nuc_frame_eq.
    unfold query_index.
    rewrite query_from_map by (intros; by apply is_nuclear_row_step).
    rewrite filter_map_preserved by (intros; by apply is_nuclear_row_step).
    rewrite map_map. f_equal. apply map_ext_in.
    intros r [_ Hr]%filter_In. symmetry. by apply nuc_view_row_step.
  - unfold correction_step; simpl. rewrite Hany. by destruct (any_match _ _).
Qed.

End Correction.

Section CorrectionPasses.
Implicit Types (ppl : list Plant) (st : State) (e : string * Z)
         (col : Column) (r : Plant) (entries : list (string * Z)).

Lemma any_match_row_pass col entries name ppl :
  known_column col ->
  any_match name (map (row_pass col entries) ppl) = any_match name ppl.
Proof.
  intros Hcol. revert ppl.
  induction entries as [|e entries IH]; intros ppl.
  - unfold row_pass; simpl. by rewrite map_id.
  - change (row_pass col (e :: entries))
      with (fun r => row_pass col entries (row_step col e r)).
    rewrite <- (map_map (row_step col e) (row_pass col entries)).
    by rewrite IH, any_match_row_step.
Qed.

Lemma unmatched_ext entries ppl ppl' :
  (forall name, any_match name ppl' = any_match name ppl) ->
  unmatched entries ppl' = unmatched entries ppl.
Proof.
  intros Hsame. unfold unmatched. f_equal.
  apply List.filter_ext. intros e. by rewrite Hsame.
Qed.

(** A whole loop, started in a state in which [nuc] is the Nuclear
    slice of [ppl]. *)
Lemma correction_pass_spec col entries st :
  known_column col ->
  st_nuc st = nuc_frame (st_ppl st) ->
  st_nuc (fold_left (correction_step col) entries st)
  = nuc_frame (st_ppl (fold_left (correction_step col) entries st))
  /\ st_ppl (fold_left (correction_step col) entries st)
     = map (row_pass col entries) (st_ppl st)
  /\ st_out (fold_left (correction_step col) entries st)
     = st_out st ++ unmatched entries (st_ppl st).
Proof.
  intros Hcol. revert st.
  induction entries as [|e entries IH]; intros st Hinv; simpl.
  - unfold row_pass, unmatched; simpl.
    by rewrite map_id, app_nil_r.
  - destruct (correction_step_spec col st e Hcol Hinv) as (Hinv1 & Hppl1 & Hout1).
    destruct (IH _ Hinv1) as (Hinv' & Hppl' & Hout').
    split; [exact Hinv'|]. split.
    + rewrite Hppl', Hppl1, map_map. done.
    + rewrite Hout', Hout1, Hppl1.
      rewrite (unmatched_ext entries (st_ppl st))
        by (intros; by apply any_match_row_step).
      unfold unmatched; simpl.
      destruct (any_match (fst e) (st_ppl st)); simpl; [done|].
      by rewrite <- app_assoc.
Qed.

(** The function, row by row. *)
Lemma correct_nuclear_data_rows ppl :
  correct_nuclear_data ppl
  = (map correct_row ppl,
     unmatched YearCommercial ppl ++ unmatched CapacityTable ppl).
Proof.
  unfold correct_nuclear_data, correct_row.
  generalize YearCommercial CapacityTable. intros years capacities.
  destruct (correction_pass_spec col_DateIn years (mkState (nuc_frame ppl) ppl []))
    as (Hinv1 & Hppl1 & Hout1); [by left | done |].
  destruct (correction_pass_spec col_Capacity capacities _ (or_intror eq_refl) Hinv1)
    as (_ & Hppl2 & Hout2).
  rewrite Hppl2, Hout2, Hppl1, Hout1; simpl.
  rewrite map_map. f_equal. f_equal.
  apply unmatched_ext. intros name. apply any_match_row_pass. by left.
Qed.

Lemma row_pass_not_nuclear col entries r :
  is_nuclear r = false -> row_pass col entries r = r.
Proof.
  intros Hr. unfold row_pass.
  induction entries as [|e entries IH]; simpl; [done|].
  unfold row_step at 2. by rewrite Hr.
Qed.

Lemma row_pass_overwrite col entries acc r :
  known_column col ->
  is_nuclear r = true ->
  row_pass col entries (overwrite col acc r)
  = overwrite col
      (fold_left (fun acc e =>
                    if str_contains (fst e) (Name r) then Some (snd e) else acc)
                 entries acc) r.
Proof.
  intros Hcol Hr. unfold row_pass. revert acc.
  induction entries as [|e entries IH]; intros acc; simpl; [done|].
  rewrite <- IH. f_equal.
  unfold row_step.
  assert (Hkeep : is_nuclear (overwrite col acc r) = true
                  /\ Name (overwrite col acc r) = Name r).
  { destruct Hcol as [-> | ->], acc; simpl; auto. }
  destruct Hkeep as [-> ->]. simpl.
  destruct (str_contains (fst e) (Name r)); [|done].
  destruct Hcol as [-> | ->], acc; done.
Qed.

(** On a Nuclear row a loop leaves the value of the last entry that
    matches its name, or the row as it was. *)
Lemma row_pass_last_value col entries r :
  known_column col ->
  is_nuclear r = true ->
  row_pass col entries r = overwrite col (last_value entries (Name r)) r.
Proof. intros Hcol Hr. exact (row_pass_overwrite col entries None r Hcol Hr). Qed.

End CorrectionPasses.

Section CorrectionClaims.
Implicit Types (ppl : list Plant) (st : State) (e : string * Z)
         (col : Column) (r : Plant).

Lemma Forall2_map_diag {A B : Type} (R : A -> B -> Prop) (f : A -> B)
    (l : list A) :
  (forall a, R a (f a)) -> Forall2 R l (map f l).
Proof. intros Hf. induction l as [|a l IH]; simpl; by constructor. Qed.

Lemma is_nuclear_true r : is_nuclear r = true <-> Fueltype r = Some "Nuclear".
Proof.
  unfold is_nuclear, opt_is. destruct (Fueltype r) as [s|]; [|done].
  rewrite String.eqb_eq. split; congruence.
Qed.

Lemma correct_row_nuclear r :
  is_nuclear r = true ->
  correct_row r
  = overwrite col_Capacity (last_value CapacityTable (Name r))
      (overwrite col_DateIn (last_value YearCommercial (Name r)) r).
Proof.
  intros Hr. unfold correct_row.
  rewrite (row_pass_last_value col_DateIn) by (done || by left).
  generalize (last_value YearCommercial (Name r)). intros d.
  rewrite (row_pass_last_value col_Capacity);
    [| by right | by destruct d].
  by destruct d.
Qed.

Lemma overwrite_keeps col v r :
  known_column col ->
  is_nuclear (overwrite col v r) = is_nuclear r
  /\ Name (overwrite col v r) = Name r.
Proof. intros [-> | ->]; by destruct v. Qed.

Lemma overwrite_twice (d c : option Z) r :
  overwrite col_Capacity c
    (overwrite col_DateIn d (overwrite col_Capacity c (overwrite col_DateIn d r)))
  = overwrite col_Capacity c (overwrite col_DateIn d r).
Proof. by destruct d, c. Qed.

Lemma correct_row_idempotent r : correct_row (correct_row r) = correct_row r.
Proof.
  destruct (is_nuclear r) eqn:Hr.
  - rewrite (correct_row_nuclear r Hr).
    rewrite correct_row_nuclear.
    + destruct (overwrite_keeps col_Capacity (last_value CapacityTable (Name r))
                  (overwrite col_DateIn (last_value YearCommercial (Name r)) r))
        as [_ ->]; [by right|].
      destruct (overwrite_keeps col_DateIn (last_value YearCommercial (Name r)) r)
        as [_ ->]; [by left|].
      apply overwrite_twice.
    + destruct (overwrite_keeps col_Capacity (last_value CapacityTable (Name r))
                  (overwrite col_DateIn (last_value YearCommercial (Name r)) r))
        as [-> _]; [by right|].
      destruct (overwrite_keeps col_DateIn (last_value YearCommercial (Name r)) r)
        as [-> _]; [by left|]. exact Hr.
  - unfold correct_row. by rewrite !(row_pass_not_nuclear _ _ r Hr).
Qed.

Lemma correct_row_frame r :
  same_but_DateIn_Capacity r (correct_row r)
  /\ (Fueltype r <> Some "Nuclear" -> correct_row r = r).
Proof.
  destruct (is_nuclear r) eqn:Hr.
  - split.
    + rewrite (correct_row_nuclear r Hr).
      destruct (last_value YearCommercial (Name r)),
               (last_value CapacityTable (Name r));
        unfold same_but_DateIn_Capacity; simpl; tauto.
    + intros Hfuel. by apply is_nuclear_true in Hr.
  - unfold correct_row. rewrite !(row_pass_not_nuclear _ _ r Hr).
    unfold same_but_DateIn_Capacity. tauto.
Qed.

(** C4.  The nuclear correction is idempotent: correcting an already
    corrected table gives the corrected table again, so every row has
    the same DateIn and Capacity after two applications as after one,
    for every input table. *)
Theorem correct_nuclear_data_idempotent ppl :
  fst (correct_nuclear_data (fst (correct_nuclear_data ppl)))
  = fst (correct_nuclear_data ppl).
Proof.
  rewrite !correct_nuclear_data_rows. cbn [fst].
  rewrite map_map. apply map_ext. intros r. apply correct_row_idempotent.
Qed.





(** The examples of C6: the whole function on a table with the Nuclear
    row "Fessenheim Unit 1" and a coal plant of a similar name, and one
    turn for an entry that matches no row. *)
Lemma fessenheim_example :
  fst (correct_nuclear_data [coal_plant; fessenheim])
  = [coal_plant; set_Capacity (Num 0) (set_DateIn (Num (1978 # 1)) fessenheim)].
Proof. vm_compute. reflexivity. Qed.

Lemma nonexistent_plant_example :
  correction_step col_DateIn
    (mkState (nuc_frame [coal_plant; fessenheim]) [coal_plant; fessenheim] [])
    ("Nonexistent Plant", 1999%Z)
  = mkState (nuc_frame [coal_plant; fessenheim]) [coal_plant; fessenheim]
            ["'Nonexistent Plant' was not found in given DataFrame."].
Proof. vm_compute. reflexivity. Qed.

End CorrectionClaims.

(* ===================================================================== *)
(* The scanning index meets the contract of the nearest-neighbour query   *)
(* ===================================================================== *)

Section Scan.
Implicit Types (data pre rest : list (Q * Q)) (q p : Q * Q).

Lemma nearest_from_spec q rest pre best dbest pb :
  pre !! best = Some pb ->
  dbest = sqdist pb q ->
  (forall p', In p' pre -> (dbest <= sqdist p' q)%Q) ->
  exists p,
    (pre ++ rest) !! nearest_from q best dbest (length pre) rest = Some p
    /\ forall p', In p' (pre ++ rest) -> (sqdist p q <= sqdist p' q)%Q.
Proof.
  revert pre best dbest pb.
  induction rest as [|p1 rest IH]; intros pre best dbest pb Hbest Hd Hmin; simpl.
  - exists pb. rewrite app_nil_r. split; [done|]. intros p' Hp'.
    rewrite <- Hd. by apply Hmin.
  - replace (pre ++ p1 :: rest) with ((pre ++ [p1]) ++ rest)
      by (by rewrite <- app_assoc).
    replace (S (length pre)) with (length (pre ++ [p1]))
      by (rewrite length_app; simpl; lia).
    destruct (Qle_bool dbest (sqdist p1 q)) eqn:Hle.
    + apply (IH (pre ++ [p1]) best dbest pb); [|done|].
      * by apply lookup_app_l_Some.
      * intros p' [Hp' | [<- | []]]%in_app_or; [by apply Hmin|].
        by apply Qle_bool_iff.
    + assert (Hlt : (sqdist p1 q < dbest)%Q).
      { apply Qnot_le_lt. intros Hc%Qle_bool_iff. congruence. }
      apply (IH (pre ++ [p1]) (length pre) (sqdist p1 q) p1); [|done|].
      * by rewrite list_lookup_middle.
      * intros p' [Hp' | [<- | []]]%in_app_or; [|apply Qle_refl].
        apply Qle_trans with dbest; [by apply Qlt_le_weak | by apply Hmin].
Qed.

Lemma scan_query_contract : kdtree_contract scan_query.
Proof.
  split.
  - intros data [[a|] [b|]] [Hempty | [Hnone | Hnone]]; simpl in *; subst;
      done.
  - intros [|p0 data] a b Hne; [done|]. simpl.
    apply (nearest_from_spec (a, b) data [p0] 0 (sqdist p0 (a, b)) p0);
      [done | done |].
    intros p' [<- | []]. apply Qle_refl.
Qed.

End Scan.

(* ===================================================================== *)
(* The matching loop                                                     *)
(* ===================================================================== *)

Section MatchingLoop.
Variable kdtree_query : list (Q * Q) -> option Q * option Q -> nat.
Hypothesis kdtree_ok : kdtree_contract kdtree_query.

Implicit Types (buses : list Bus) (ppl : list Plant) (r : Plant)
         (c : string) (countries : list string).

Lemma lookup_map {A B : Type} (f : A -> B) (l : list A) (i : nat) :
  map f l !! i = option_map f (l !! i).
Proof.
  revert i. induction l as [|a l IH]; intros [|i]; simpl; done.
Qed.

Lemma existsb_id_map {A : Type} (f : A -> bool) (l : list A) :
  existsb id (map f l) = existsb f l.
Proof. induction l as [|a l IH]; simpl; [done|]. by rewrite IH. Qed.

Lemma length_filter_id_map {A : Type} (f : A -> bool) (l : list A) :
  length (List.filter id (map f l)) = length (List.filter f l).
Proof.
  induction l as [|a l IH]; simpl; [done|].
  destruct (f a); simpl; by rewrite IH.
Qed.

Lemma elem_In c countries : elem c countries = true <-> In c countries.
Proof.
  unfold elem. rewrite existsb_exists. split.
  - intros (c' & Hin & ->%String.eqb_eq). done.
  - intros Hin. exists c. split; [done|]. apply String.eqb_refl.
Qed.

Lemma In_unique c (l : list string) : In c (unique l) <-> In c l.
Proof.
  induction l as [|a l IH]; simpl; [done|].
  rewrite filter_In, IH. split.
  - intros [-> | [Hin _]]; auto.
  - intros [-> | Hin]; [by left|].
    destruct (String.eqb a c) eqn:Hac.
    + left. by apply String.eqb_eq.
    + right. done.
Qed.

Lemma In_substations buses c b :
  In b (substations buses c)
  <-> In b buses /\ substation_lv b = true /\ country b = c.
Proof.
  unfold substations. rewrite filter_In, andb_true_iff, String.eqb_eq. tauto.
Qed.

Lemma Country_set_bus v r : Country (set_bus v r) = Country r.
Proof. done. Qed.

(** The position the index returns is never past the sentinel. *)
Lemma kdtree_query_bound data pt : kdtree_query data pt <= length data.
Proof.
  destruct kdtree_ok as [Hmiss Hnear].
  destruct pt as [[a|] [b|]]; try (rewrite Hmiss; simpl; auto; lia).
  destruct data as [|p0 data]; [rewrite Hmiss; simpl; auto; lia|].
  destruct (Hnear (p0 :: data) a b) as (p & Hp & _); [done|].
  apply lookup_lt_Some in Hp. lia.
Qed.

Lemma sentinel_lookup (ids : list string) (i : nat) :
  i <= length ids ->
  (map Some ids ++ [None]) !! i
  = Some (default None ((map Some ids ++ [None]) !! i)).
Proof.
  intros Hi.
  destruct ((map Some ids ++ [None]) !! i) as [v|] eqn:Hlook; [done|].
  apply lookup_ge_None in Hlook.
  rewrite length_app, length_map in Hlook. simpl in Hlook. lia.
Qed.

Lemma take_total {A B : Type} (l : list B) (f : A -> nat) (d : B)
    (rows : list A) :
  (forall a, l !! f a = Some (default d (l !! f a))) ->
  take l (map f rows) = Some (map (fun a => default d (l !! f a)) rows).
Proof.
  intros Hl. unfold take.
  induction rows as [|a rows IH]; simpl; [done|].
  rewrite Hl. simpl. rewrite IH. done.
Qed.

(** One turn of the loop never raises and rewrites the table row by
    row. *)
Lemma match_country_rows buses ppl c :
  match_country kdtree_query buses ppl c
  = Some (map (match_row kdtree_query buses c) ppl).
Proof.
  unfold match_country. rewrite loc_query_index.
  rewrite (take_total _ _ None).
  - simpl.
    rewrite (loc_set_query_index set_bus (assigned_bus kdtree_query buses c)).
    done.
  - intros r. apply sentinel_lookup.
    rewrite length_map.
    rewrite <- (length_map (fun b => (x b, y b))).
    apply kdtree_query_bound.
Qed.

Lemma assigned_bus_set_bus buses c v r :
  assigned_bus kdtree_query buses c (set_bus v r)
  = assigned_bus kdtree_query buses c r.
Proof. done. Qed.

Lemma matched_row_cons buses c countries r :
  matched_row kdtree_query buses countries (match_row kdtree_query buses c r)
  = matched_row kdtree_query buses (c :: countries) r.
Proof.
  unfold matched_row, match_row. simpl.
  destruct (String.eqb (Country r) c) eqn:Hc; simpl; [|done].
  apply String.eqb_eq in Hc. subst c.
  by destruct (elem (Country r) countries).
Qed.

Lemma match_countries_rows buses countries ppl :
  match_countries kdtree_query buses ppl countries
  = Some (map (matched_row kdtree_query buses countries) ppl).
Proof.
  revert ppl. induction countries as [|c countries IH]; intros ppl; simpl.
  - unfold matched_row; simpl. by rewrite map_id.
  - rewrite match_country_rows. simpl. rewrite IH, map_map.
    f_equal. apply map_ext. intros r. apply matched_row_cons.
Qed.

(** The loop and the warnings: with a bus in the network, or a table
    that arrives with the column [bus], the script does not raise here. *)
Lemma attach_buses_rows buses bus_column ppl :
  bus_column = true \/ buses <> [] ->
  exists ws,
    attach_buses kdtree_query buses bus_column ppl
    = Some (map (matched_row kdtree_query buses (unique (map country buses)))
                ppl, ws)
    /\ ws
       = match List.filter
                 (fun c => negb (elem c (unique (map Country ppl))))
                 (unique (map country buses)) with
         | [] => []
         | c :: cs => [NoPowerplantsKnown (c :: cs)]
         end
         ++ (if existsb bus_isnull
                  (map (matched_row kdtree_query buses
                          (unique (map country buses))) ppl)
             then [NoCloseBus
                     (length (List.filter bus_isnull
                        (map (matched_row kdtree_query buses
                                (unique (map country buses))) ppl)))]
             else []).
Proof.
  intros Hcol.
  unfold attach_buses. rewrite match_countries_rows. simpl.
  assert (Hhas : match unique (map country buses) with
                 | [] => bus_column
                 | _ :: _ => true
                 end = true).
  { destruct Hcol as [-> | Hne]; [by destruct (unique _)|].
    by destruct buses. }
  rewrite Hhas.
  eexists. split; [reflexivity|].
  f_equal.
  - by destruct (List.filter _ _).
  - by rewrite existsb_id_map, length_filter_id_map.
Qed.

(** With a substation in the country and both coordinates present the
    row gets the identifier of a nearest eligible substation. *)
Lemma assigned_bus_nearest buses c r a b :
  substations buses c <> [] ->
  lon r = Some a ->
  lat r = Some b ->
  exists s,
    In s (substations buses c)
    /\ assigned_bus kdtree_query buses c r = Some (bus_id s)
    /\ forall s', In s' (substations buses c) ->
         (sqdist (x s, y s) (a, b) <= sqdist (x s', y s') (a, b))%Q.
Proof.
  intros Hne Hlon Hlat. unfold assigned_bus. rewrite Hlon, Hlat.
  destruct kdtree_ok as [_ Hnear].
  set (subs := substations buses c) in *.
  destruct (Hnear (map (fun s => (x s, y s)) subs) a b) as (p & Hp & Hmin).
  { by destruct subs. }
  rewrite lookup_map in Hp.
  destruct (subs !! kdtree_query (map (fun s => (x s, y s)) subs) (Some a, Some b))
    as [s|] eqn:Hs; [|done].
  simpl in Hp. injection Hp as <-.
  exists s. split; [|split].
  - apply list_elem_of_In. by eapply list_elem_of_lookup_2.
  - rewrite lookup_app_l
      by (rewrite !length_map; by eapply lookup_lt_Some).
    by rewrite !lookup_map, Hs.
  - intros s' Hs'. apply (Hmin (x s', y s')).
    apply in_map_iff. by exists s'.
Qed.


End MatchingLoop.

Section MatchingClaims.
Variable kdtree_query : list (Q * Q) -> option Q * option Q -> nat.
Hypothesis kdtree_ok : kdtree_contract kdtree_query.

Implicit Types (buses : list Bus) (ppl : list Plant) (r : Plant)
         (c : string).

Lemma substations_in_network buses c :
  substations buses c <> [] -> In c (map country buses).
Proof.
  destruct (substations buses c) as [|s subs] eqn:Hsubs; [done|].
  intros _.
  assert (Hs : In s (substations buses c)) by (rewrite Hsubs; by left).
  apply In_substations in Hs as (Hin & _ & <-).
  by apply in_map.
Qed.

Lemma matched_row_nearest buses r a b :
  substations buses (Country r) <> [] ->
  lon r = Some a ->
  lat r = Some b ->
  exists s,
    In s (substations buses (Country r))
    /\ matched_row kdtree_query buses (unique (map country buses)) r
       = set_bus (Some (bus_id s)) r
    /\ forall s', In s' (substations buses (Country r)) ->
         (sqdist (x s, y s) (a, b) <= sqdist (x s', y s') (a, b))%Q.
Proof.
  intros Hne Hlon Hlat.
  destruct (assigned_bus_nearest kdtree_query kdtree_ok buses (Country r) r a b
              Hne Hlon Hlat) as (s & Hs & Hbus & Hmin).
  exists s. split; [done|]. split; [|done].
  unfold matched_row.
  rewrite (proj2 (elem_In _ _)), Hbus; [done|].
  apply In_unique. by apply substations_in_network.
Qed.


End MatchingClaims.









(** The example of C7 for every index that meets the contract: the plant
    at (5, 45) in France is attached to S1. *)
Lemma example_plant_attached_to_S1
    (kdtree_query : list (Q * Q) -> option Q * option Q -> nat) :
  kdtree_contract kdtree_query ->
  exists ws,
    attach_buses kdtree_query [S1; S2] false
                 [plant_at "FR" (Some (5 # 1)) (Some (45 # 1))]
    = Some ([set_bus (Some "S1") (plant_at "FR" (Some (5 # 1)) (Some (45 # 1)))],
            ws).
Proof.
  intros Hok.
  destruct (attach_buses_rows kdtree_query Hok [S1; S2] false
              [plant_at "FR" (Some (5 # 1)) (Some (45 # 1))])
    as (ws & Hrun & _); [by right|].
  exists ws. rewrite Hrun.
  destruct (matched_row_nearest kdtree_query Hok [S1; S2]
              (plant_at "FR" (Some (5 # 1)) (Some (45 # 1))) (5 # 1) (45 # 1))
    as (s & Hs & Hrow & Hmin); [discriminate | done | done |].
  assert (Hone : forall (f : Plant -> Plant) p, map f [p] = [f p]) by done.
  rewrite Hone, Hrow.
  destruct Hs as [<- | [<- | []]]; [done|].
  specialize (Hmin S1 (or_introl eq_refl)).
  exfalso. revert Hmin. vm_compute. intros H. by apply H.
Qed.






(** Without any bus in the network no turn of the loop runs: a table that
    arrived without the column [bus] makes the script raise, a table that
    arrived with it is returned as it is. *)
Lemma empty_network_example :
  attach_buses scan_query [] false [plant_at "FR" None None] = None
  /\ attach_buses scan_query [] true [plant_at "FR" None None]
     = Some ([plant_at "FR" None None], [NoCloseBus 1]).
Proof. split; reflexivity. Qed.



(* ===================================================================== *)
(* add_custom_powerplants and the rows that reach the matching loop      *)
(* ===================================================================== *)

Section Merge.
Implicit Types (ppl custom df : list Plant) (r : Plant).

Lemma reset_index_from df k :
  map index (imap (fun i r => set_index (Z.of_nat (k + i)) r) df)
  = map Z.of_nat (seq k (length df))
  /\ Forall2 (fun r r' => r' = set_index (index r') r) df
             (imap (fun i r => set_index (Z.of_nat (k + i)) r) df).
Proof.
  revert k. induction df as [|r df IH]; intros k.
  - split; [done | constructor].
  - rewrite imap_cons.
    rewrite (imap_ext _ (fun i r => set_index (Z.of_nat (S k + i)) r))
      by (intros; simpl; f_equal; lia).
    destruct (IH (S k)) as [Hidx Hrows]. split.
    + rewrite map_cons, Hidx. simpl. by rewrite Nat.add_0_r.
    + constructor; [done | exact Hrows].
Qed.

Lemma reset_index_spec df :
  map index (reset_index df) = map Z.of_nat (seq 0 (length df))
  /\ Forall2 (fun r r' => r' = set_index (index r') r) df (reset_index df).
Proof. exact (reset_index_from df 0). Qed.

Lemma NoDup_range n : NoDup (map Z.of_nat (seq 0 n)).
Proof. apply (NoDup_fmap_2 Z.of_nat), NoDup_seq. Qed.

(** With the custom table switched off the table is returned as it is. *)
Lemma add_custom_powerplants_off custom ppl :
  add_custom_powerplants CfgFalsy custom ppl = Some ppl.
Proof. done. Qed.

(** The integrity check of [append] does raise on colliding labels when
    the labels are kept. *)
Lemma append_keeping_labels_raises :
  append false true [fessenheim] [set_index 7 coal_plant] = None.
Proof. reflexivity. Qed.

End Merge.

(** C5 (as amended).  With the custom table switched on, the merge never
    raises, whatever the row labels of the two tables: the result is the
    base rows followed by the admitted custom rows, each row unchanged
    but for its label, and the labels are reset to 0, 1, ..., n-1, so
    that the result holds no label twice. *)
Theorem add_custom_powerplants_resets_index
    (custom_ppl_query : config_value) (custom ppl : list Plant) :
  custom_ppl_query <> CfgFalsy ->
  exists merged,
    add_custom_powerplants custom_ppl_query custom ppl = Some merged
    /\ Forall2 (fun r r' => r' = set_index (index r') r)
               (ppl ++ custom_rows custom_ppl_query custom) merged
    /\ map index merged
       = map Z.of_nat
           (seq 0 (length ppl + length (custom_rows custom_ppl_query custom)))
    /\ NoDup (map index merged).
Proof.
  intros Hon.
  exists (reset_index (ppl ++ custom_rows custom_ppl_query custom)).
  destruct (reset_index_spec (ppl ++ custom_rows custom_ppl_query custom))
    as [Hidx Hrows].
  split; [by destruct custom_ppl_query|]. split; [exact Hrows|].
  rewrite Hidx, length_app. split; [done|]. apply NoDup_range.
Qed.

Lemma add_custom_powerplants_resets_index_witness :
  CfgTrue <> CfgFalsy
  /\ index fessenheim = index (set_index 7 coal_plant)
  /\ exists merged,
       add_custom_powerplants CfgTrue [set_index 7 coal_plant] [fessenheim]
       = Some merged
       /\ Forall2 (fun r r' => r' = set_index (index r') r)
                  ([fessenheim] ++ custom_rows CfgTrue [set_index 7 coal_plant])
                  merged
       /\ map index merged
          = map Z.of_nat
              (seq 0 (length [fessenheim]
                      + length (custom_rows CfgTrue [set_index 7 coal_plant])))
       /\ NoDup (map index merged).
Proof.
  assert (Hon : CfgTrue <> CfgFalsy) by discriminate.
  split; [exact Hon|]. split; [reflexivity|].
  exact (add_custom_powerplants_resets_index CfgTrue [set_index 7 coal_plant]
           [fessenheim] Hon).
Defined.

(** C5 as stated fails: the base row and the custom row carry the same
    label 7, and the merge returns a table instead of raising. *)
Lemma colliding_labels_do_not_raise :
  index fessenheim = index (set_index 7 coal_plant)
  /\ add_custom_powerplants CfgTrue [set_index 7 coal_plant] [fessenheim]
     = Some [set_index 0 fessenheim; set_index 1 coal_plant].
Proof. split; reflexivity. Qed.

Section Prepare.
Implicit Types (buses : list Bus) (r : Plant).

Lemma Country_normalize r : Country (normalize r) = Country r.
Proof.
  unfold normalize.
  repeat match goal with
         | |- context [if ?b then _ else _] => destruct b
         end; done.
Qed.

Lemma Country_correct_row r : Country (correct_row r) = Country r.
Proof. by destruct (correct_row_frame r) as [(_ & _ & _ & _ & -> & _) _]. Qed.

(** The rows of the database are filtered by country: with the custom
    table switched off, every row handed to the matching loop is in a
    country of the network. *)
Lemma base_rows_in_network cfg buses powerplants custom_csv ppl out :
  custom_powerplants cfg = CfgFalsy ->
  prepare cfg buses powerplants custom_csv = Some (ppl, out) ->
  forall r, In r ppl -> In (Country r) (map country buses).
Proof.
  unfold prepare. intros -> Hrun r Hr. simpl in Hrun.
  rewrite correct_nuclear_data_rows in Hrun. injection Hrun as <- _.
  apply in_map_iff in Hr as (r0 & <- & Hr0).
  rewrite Country_correct_row.
  assert (Hbase : In r0 (map normalize
                           (List.filter (base_query (unique (map country buses)))
                                        powerplants))).
  { destruct (powerplants_filter cfg); try done.
    by apply filter_In in Hr0 as [Hr0 _]. }
  apply in_map_iff in Hbase as (r1 & <- & Hr1).
  rewrite Country_normalize.
  apply filter_In in Hr1 as [_ Hq].
  unfold base_query in Hq. apply andb_true_iff in Hq as [_ Hc].
  apply In_unique. by apply elem_In.
Qed.

End Prepare.


(* ===================================================================== *)
(* The chain on the database                                             *)
(* ===================================================================== *)

Section Normalize.
Implicit Types (r : Plant) (o : option string) (c : cell).

Lemma replace_text_idem o :
  replace_text "Steam Turbine" "OCGT"
    (replace_text "Steam Turbine" "OCGT" o)
  = replace_text "Steam Turbine" "OCGT" o.
Proof.
  destruct o as [s|]; simpl; [|done].
  destruct (String.eqb s "Steam Turbine") eqn:Hs; simpl; [done|].
  by rewrite Hs.
Qed.

Lemma replace_cell_idem c :
  replace_cell "2006" "1985" (replace_cell "2006" "1985" c)
  = replace_cell "2006" "1985" c.
Proof.
  destruct c as [|q|s]; simpl; try done.
  destruct (String.eqb s "2006") eqn:Hs; simpl; [done|].
  by rewrite Hs.
Qed.

Lemma Technology_normalize r :
  Technology (normalize r)
  = replace_text "Steam Turbine" "OCGT" (Technology r).
Proof.
  unfold normalize.
  repeat match goal with
         | |- context [if ?b then _ else _] => destruct b
         end; done.
Qed.

Lemma Fueltype_normalize r :
  Fueltype (normalize r)
  = if opt_is "Natural Gas" (Fueltype r)
    then Some (default "OCGT"
                 (replace_text "Steam Turbine" "OCGT" (Technology r)))
    else Fueltype r.
Proof.
  unfold normalize. cbn [Fueltype Technology set_Technology Country].
  destruct (opt_is "Natural Gas" (Fueltype r)).
  - rewrite replace_text_idem.
    destruct (replace_text "Steam Turbine" "OCGT" (Technology r));
      cbn [set_Fueltype Fueltype Country];
      match goal with
      | |- context [if ?b then _ else _] => by destruct b
      end.
  - match goal with
    | |- context [if ?b then _ else _] => by destruct b
    end.
Qed.

Lemma DateIn_normalize r :
  DateIn (normalize r)
  = if String.eqb (Country r) "SE"
       && opt_is "Nuclear" (Fueltype (normalize r))
    then DateIn r
    else replace_cell "2006" "1985" (DateIn r).
Proof.
  rewrite Fueltype_normalize.
  unfold normalize. cbn [Fueltype Technology set_Technology Country].
  destruct (opt_is "Natural Gas" (Fueltype r)).
  - rewrite replace_text_idem.
    destruct (replace_text "Steam Turbine" "OCGT" (Technology r));
      simpl;
      match goal with
      | |- context [if ?b then _ else _] => by destruct b
      end.
  - simpl.
    match goal with
    | |- context [if ?b then _ else _] => by destruct b
    end.
Qed.

Lemma normalize_frame r : same_but_labels_DateIn r (normalize r).
Proof.
  unfold normalize, same_but_labels_DateIn.
  repeat match goal with
         | |- context [if ?b then _ else _] => destruct b
         end; simpl; tauto.
Qed.

Lemma Plant_ext r r' :
  index r' = index r -> Name r' = Name r -> Fueltype r' = Fueltype r ->
  Technology r' = Technology r -> Country r' = Country r ->
  Capacity r' = Capacity r -> DateIn r' = DateIn r -> lat r' = lat r ->
  lon r' = lon r -> bus r' = bus r -> others r' = others r -> r' = r.
Proof. destruct r, r'; simpl; intros; by subst. Qed.

End Normalize.

(** X4.  After the chain on the database no row has the technology "Steam
    Turbine", whatever its fuel: the label is replaced by "OCGT" in every
    row, not only in the rows of gas plants. *)
Theorem no_steam_turbine_left (r : Plant) :
  Technology (normalize r) <> Some "Steam Turbine"
  /\ (Technology r = Some "Steam Turbine" ->
      Technology (normalize r) = Some "OCGT").
Proof.
  rewrite Technology_normalize. split.
  - destruct (Technology r) as [s|]; simpl; [|done].
    destruct (String.eqb s "Steam Turbine") eqn:Hs; [done|].
    apply String.eqb_neq in Hs. congruence.
  - by intros ->.
Qed.

Lemma no_steam_turbine_left_witness :
  Technology fessenheim = Some "Steam Turbine"
  /\ Technology (normalize fessenheim) <> Some "Steam Turbine"
  /\ (Technology fessenheim = Some "Steam Turbine" ->
      Technology (normalize fessenheim) = Some "OCGT").
Proof. split; [reflexivity|]. exact (no_steam_turbine_left fessenheim). Defined.

(** X5.  The chain on the database writes the columns Technology,
    Fueltype and DateIn only: label, name, country, capacity,
    coordinates, bus and the other columns of every row are as they
    were. *)
Theorem normalize_keeps_other_columns (r : Plant) :
  same_but_labels_DateIn r (normalize r).
Proof. apply normalize_frame. Qed.

(** X6.  The chain on the database is idempotent: applied to a row it has
    already treated it changes nothing. *)
Theorem normalize_idempotent (r : Plant) :
  normalize (normalize r) = normalize r.
Proof.
  assert (Hfuel : Fueltype (normalize (normalize r)) = Fueltype (normalize r)).
  { rewrite (Fueltype_normalize (normalize r)), Technology_normalize.
    rewrite replace_text_idem.
    destruct (opt_is "Natural Gas" (Fueltype (normalize r))) eqn:Hgas; [|done].
    rewrite Fueltype_normalize in Hgas |- *.
    destruct (opt_is "Natural Gas" (Fueltype r)) eqn:Hgas0; [done|].
    congruence. }
  destruct (normalize_frame (normalize r))
    as (Hi & Hn & Hc & Hcap & Hlat & Hlon & Hbus & Hoth).
  apply Plant_ext; try done.
  - by rewrite Technology_normalize, Technology_normalize, replace_text_idem.
  - rewrite (DateIn_normalize (normalize r)), Hfuel.
    rewrite (DateIn_normalize r).
    destruct (normalize_frame r) as (_ & _ & -> & _).
    destruct (String.eqb (Country r) "SE"
              && opt_is "Nuclear" (Fueltype (normalize r))); [done|].
    apply replace_cell_idem.
Qed.

(** X7.  In the chain on the database a row whose fuel is "Natural Gas"
    ends with its technology as its fuel, "OCGT" standing in for a
    missing technology, and never with the fuel "Steam Turbine"; a row of
    another fuel, or of no fuel, keeps its fuel. *)
Theorem gas_plants_take_their_technology (r : Plant) :
  (Fueltype r = Some "Natural Gas" ->
   Fueltype (normalize r) = Some (default "OCGT" (Technology (normalize r)))
   /\ Fueltype (normalize r) <> Some "Steam Turbine")
  /\ (Fueltype r <> Some "Natural Gas" ->
      Fueltype (normalize r) = Fueltype r).
Proof.
  rewrite Fueltype_normalize, Technology_normalize. split.
  - intros ->. simpl. split; [done|].
    destruct (Technology r) as [t|]; simpl; [|done].
    destruct (String.eqb t "Steam Turbine") eqn:Ht; simpl; [done|].
    apply String.eqb_neq in Ht. congruence.
  - intros Hf. destruct (Fueltype r) as [s|]; simpl; [|done].
    destruct (String.eqb s "Natural Gas") eqn:Hs; [|done].
    apply String.eqb_eq in Hs. congruence.
Qed.

Lemma gas_plants_take_their_technology_witness :
  Fueltype (set_Fueltype (Some "Natural Gas") fessenheim) = Some "Natural Gas"
  /\ Fueltype (normalize (set_Fueltype (Some "Natural Gas") fessenheim))
     = Some (default "OCGT"
               (Technology
                  (normalize (set_Fueltype (Some "Natural Gas") fessenheim))))
  /\ Fueltype (normalize (set_Fueltype (Some "Natural Gas") fessenheim))
     <> Some "Steam Turbine".
Proof.
  split; [reflexivity|].
  exact (proj1 (gas_plants_take_their_technology
                  (set_Fueltype (Some "Natural Gas") fessenheim)) eq_refl).
Defined.

(** X21.  The replacement of the year "2006" by "1985" acts on text only:
    a year held as a number, 2006 included, and a missing year are left as
    they are in every row; and a row leaves the chain with the text "2006"
    only if it came with it and is a Swedish row whose fuel is "Nuclear". *)
Theorem year_replacement_is_textual (r : Plant) :
  (forall q, DateIn r = Num q -> DateIn (normalize r) = Num q)
  /\ (DateIn r = NaN -> DateIn (normalize r) = NaN)
  /\ (DateIn (normalize r) = Str "2006" ->
      DateIn r = Str "2006" /\ Country r = "SE"
      /\ Fueltype (normalize r) = Some "Nuclear").
Proof.
  rewrite DateIn_normalize.
  destruct (String.eqb (Country r) "SE"
            && opt_is "Nuclear" (Fueltype (normalize r))) eqn:Hse.
  - apply andb_true_iff in Hse as [Hc%String.eqb_eq Hn].
    split; [done|]. split; [done|]. intros Hd. split; [done|]. split; [done|].
    destruct (Fueltype (normalize r)) as [f|]; [|done].
    apply String.eqb_eq in Hn. by subst f.
  - split; [by intros q ->|]. split; [by intros ->|].
    destruct (DateIn r) as [|q|s]; simpl; try done.
    destruct (String.eqb s "2006") eqn:Hs; [done|].
    intros [= ->]. by rewrite String.eqb_refl in Hs.
Qed.

Lemma year_replacement_is_textual_witness :
  DateIn (set_DateIn (Num (2006 # 1)) coal_plant) = Num (2006 # 1)
  /\ DateIn (normalize (set_DateIn (Num (2006 # 1)) coal_plant))
     = Num (2006 # 1).
Proof.
  split; [reflexivity|].
  exact (proj1 (year_replacement_is_textual
                  (set_DateIn (Num (2006 # 1)) coal_plant)) _ eq_refl).
Defined.

(* ===================================================================== *)
(* More on correct_nuclear_data                                          *)
(* ===================================================================== *)

Section CorrectionMore.
Implicit Types (ppl : list Plant) (r : Plant) (entries : list (string * Z)).




End CorrectionMore.





(* ===================================================================== *)
(* More on the merge and on the table handed to the matching loop        *)
(* ===================================================================== *)

Section PrepareMore.
Implicit Types (ppl custom db : list Plant) (r : Plant) (buses : list Bus)
         (cfg : Config) (q : config_value).

Lemma Forall2_map_eq {A B : Type} (R : A -> A -> Prop) (f : A -> B)
    (l k : list A) :
  Forall2 R l k -> (forall a b, R a b -> f a = f b) -> map f l = map f k.
Proof.
  intros Hlk HR. induction Hlk as [|a b l k Hab _ IH]; simpl; [done|].
  by rewrite (HR a b Hab), IH.
Qed.

Lemma map_reset_index {B : Type} (f : Plant -> B) ppl :
  (forall i r, f (set_index i r) = f r) ->
  map f (reset_index ppl) = map f ppl.
Proof.
  intros Hf. symmetry.
  apply (Forall2_map_eq _ f _ _ (proj2 (reset_index_spec ppl))).
  intros a b ->. by rewrite Hf.
Qed.

Lemma add_custom_powerplants_Some q custom ppl :
  add_custom_powerplants q custom ppl
  = Some (match q with
          | CfgFalsy => ppl
          | _ => reset_index (ppl ++ custom_rows q custom)
          end).
Proof. by destruct q. Qed.

Lemma prepare_inv cfg buses db custom ppl out :
  prepare cfg buses db custom = Some (ppl, out) ->
  exists merged,
    add_custom_powerplants (custom_powerplants cfg) custom
                           (base_rows cfg buses db) = Some merged
    /\ ppl = map correct_row merged.
Proof.
  unfold prepare.
  change (match powerplants_filter cfg with
          | CfgQuery q =>
              List.filter q
                (map normalize
                   (List.filter (base_query (unique (map country buses))) db))
          | _ => map normalize
                   (List.filter (base_query (unique (map country buses))) db)
          end) with (base_rows cfg buses db).
  rewrite add_custom_powerplants_Some. simpl.
  rewrite correct_nuclear_data_rows. intros [= <- _]. eauto.
Qed.

Lemma index_correct_row r : index (correct_row r) = index r.
Proof. by destruct (correct_row_frame r) as [(-> & _) _]. Qed.

Lemma Name_correct_row r : Name (correct_row r) = Name r.
Proof. by destruct (correct_row_frame r) as [(_ & -> & _) _]. Qed.

Lemma In_base_rows cfg buses db r :
  In r (base_rows cfg buses db) ->
  exists r0,
    In r0 db /\ base_query (unique (map country buses)) r0 = true
    /\ r = normalize r0.
Proof.
  unfold base_rows. intros Hr.
  assert (Hbase : In r (map normalize
                          (List.filter (base_query (unique (map country buses)))
                                       db))).
  { destruct (powerplants_filter cfg); try done.
    by apply filter_In in Hr as [Hr _]. }
  apply in_map_iff in Hbase as (r0 & <- & [Hr0 Hq]%filter_In).
  by exists r0.
Qed.

Lemma NoDup_map_filter {A B : Type} (f : A -> B) (P : A -> bool)
    (l : list A) :
  NoDup (map f l) -> NoDup (map f (List.filter P l)).
Proof.
  induction l as [|a l IH]; simpl; [done|].
  intros [Ha Hl]%NoDup_cons. destruct (P a); simpl; [|by apply IH].
  apply NoDup_cons. split; [|by apply IH].
  intros Hin%list_elem_of_In. apply Ha, list_elem_of_In.
  apply in_map_iff in Hin as (b & Hb & [Hin _]%filter_In).
  apply in_map_iff. by exists b.
Qed.

Lemma index_base_rows cfg buses db :
  NoDup (map index db) -> NoDup (map index (base_rows cfg buses db)).
Proof.
  intros Hdb. unfold base_rows.
  assert (Hbase : NoDup (map index (map normalize
                    (List.filter (base_query (unique (map country buses))) db)))).
  { rewrite map_map.
    rewrite (map_ext (fun r => index (normalize r)) index)
      by (intros r; by destruct (normalize_frame r) as (-> & _)).
    by apply NoDup_map_filter. }
  destruct (powerplants_filter cfg); try done.
  by apply NoDup_map_filter.
Qed.

End PrepareMore.




(** X3.  The rows handed to the matching loop carry pairwise different
    labels, provided the custom table is switched on (the labels are then
    reset) or the database came with pairwise different labels (the
    filters and corrections keep the labels of the rows they keep). *)
Theorem prepared_labels_unique
    (cfg : Config) (buses : list Bus) (db custom ppl : list Plant)
    (out : list string) :
  prepare cfg buses db custom = Some (ppl, out) ->
  custom_powerplants cfg <> CfgFalsy \/ NoDup (map index db) ->
  NoDup (map index ppl).
Proof.
  intros (merged & Hmerge & ->)%prepare_inv Hcase.
  rewrite map_map.
  rewrite (map_ext (fun r => index (correct_row r)) index)
    by apply index_correct_row.
  rewrite add_custom_powerplants_Some in Hmerge. injection Hmerge as <-.
  destruct (custom_powerplants cfg) eqn:Hcfg.
  - destruct Hcase as [Hon | Hdb]; [done|]. by apply index_base_rows.
  - rewrite (proj1 (reset_index_spec _)). apply NoDup_range.
  - rewrite (proj1 (reset_index_spec _)). apply NoDup_range.
Qed.

Lemma prepared_labels_unique_witness :
  prepare (mkConfig CfgFalsy CfgFalsy) [S1]
          [fessenheim; coal_plant] []
  = Some ([set_Capacity (Num 0)
             (set_DateIn (Num (1978 # 1))
                (set_Technology (Some "OCGT") fessenheim));
           coal_plant],
          snd (correct_nuclear_data [fessenheim]))
  /\ (custom_powerplants (mkConfig CfgFalsy CfgFalsy) <> CfgFalsy
      \/ NoDup (map index [fessenheim; coal_plant]))
  /\ NoDup (map index
              [set_Capacity (Num 0)
                 (set_DateIn (Num (1978 # 1))
                    (set_Technology (Some "OCGT") fessenheim));
               coal_plant]).
Proof.
  assert (Hrun :
    prepare (mkConfig CfgFalsy CfgFalsy) [S1] [fessenheim; coal_plant] []
    = Some ([set_Capacity (Num 0)
               (set_DateIn (Num (1978 # 1))
                  (set_Technology (Some "OCGT") fessenheim));
             coal_plant],
            snd (correct_nuclear_data [fessenheim])))
    by (vm_compute; reflexivity).
  assert (Hdb : custom_powerplants (mkConfig CfgFalsy CfgFalsy) <> CfgFalsy
                \/ NoDup (map index [fessenheim; coal_plant])).
  { right. apply (bool_decide_unpack _). by vm_compute. }
  split; [exact Hrun|]. split; [exact Hdb|].
  exact (prepared_labels_unique _ _ _ _ _ _ Hrun Hdb).
Defined.

(** X8.  With the custom table switched off, every row handed to the
    matching loop stems from a row of the database of the same label and
    name whose fuel is neither "Solar" nor "Wind" and whose country is a
    country of the network. *)
Theorem database_rows_provenance
    (cfg : Config) (buses : list Bus) (db custom ppl : list Plant)
    (out : list string) :
  custom_powerplants cfg = CfgFalsy ->
  prepare cfg buses db custom = Some (ppl, out) ->
  forall r,
    In r ppl ->
    exists r0,
      In r0 db
      /\ index r = index r0 /\ Name r = Name r0 /\ Country r = Country r0
      /\ Fueltype r0 <> Some "Solar" /\ Fueltype r0 <> Some "Wind"
      /\ In (Country r0) (map country buses).
Proof.
  intros Hoff (merged & Hmerge & ->)%prepare_inv r (r1 & <- & Hr1)%in_map_iff.
  rewrite Hoff in Hmerge. injection Hmerge as <-.
  apply In_base_rows in Hr1 as (r0 & Hr0 & Hq & ->).
  exists r0. split; [done|].
  rewrite index_correct_row, Name_correct_row, Country_correct_row.
  destruct (normalize_frame r0) as (-> & -> & -> & _).
  do 3 (split; [done|]).
  unfold base_query in Hq.
  apply andb_true_iff in Hq as [Hfuel Hc].
  apply negb_true_iff, orb_false_elim in Hfuel as [Hsolar Hwind].
  split; [|split].
  - intros Hf. rewrite Hf in Hsolar. done.
  - intros Hf. rewrite Hf in Hwind. done.
  - apply In_unique. by apply elem_In.
Qed.

Lemma database_rows_provenance_witness :
  custom_powerplants (mkConfig CfgFalsy CfgFalsy) = CfgFalsy
  /\ prepare (mkConfig CfgFalsy CfgFalsy) [S1]
             [set_Fueltype (Some "Wind") coal_plant; coal_plant] []
     = Some ([coal_plant],
             snd (correct_nuclear_data [coal_plant]))
  /\ forall r,
       In r [coal_plant] ->
       exists r0,
         In r0 [set_Fueltype (Some "Wind") coal_plant; coal_plant]
         /\ index r = index r0 /\ Name r = Name r0 /\ Country r = Country r0
         /\ Fueltype r0 <> Some "Solar" /\ Fueltype r0 <> Some "Wind"
         /\ In (Country r0) (map country [S1]).
Proof.
  assert (Hrun :
    prepare (mkConfig CfgFalsy CfgFalsy) [S1]
            [set_Fueltype (Some "Wind") coal_plant; coal_plant] []
    = Some ([coal_plant], snd (correct_nuclear_data [coal_plant])))
    by (vm_compute; reflexivity).
  split; [reflexivity|]. split; [exact Hrun|].
  exact (database_rows_provenance (mkConfig CfgFalsy CfgFalsy) [S1]
           [set_Fueltype (Some "Wind") coal_plant; coal_plant] []
           [coal_plant] _ eq_refl Hrun).
Defined.

(* ===================================================================== *)
(* More on the matching loop, the warnings and the whole script          *)
(* ===================================================================== *)

Section Selection.
Context {A : Type}.
Implicit Types (P : A -> bool) (df : list A).

Lemma query_from_none P k df :
  (forall r, In r df -> P r = false) -> query_from P k df = [].
Proof.
  revert k. induction df as [|r df IH]; intros k Hno; simpl; [done|].
  rewrite (Hno r) by (by left). apply IH. intros r' Hr'. apply Hno. by right.
Qed.

Lemma existsb_length_filter P df :
  existsb P df = true <-> 0 < length (List.filter P df).
Proof.
  induction df as [|r df IH]; simpl; [split; [done | lia]|].
  destruct (P r); simpl; [split; [lia | done] | exact IH].
Qed.

End Selection.

Section MatchingMore.
Variable kdtree_query : list (Q * Q) -> option Q * option Q -> nat.
Hypothesis kdtree_ok : kdtree_contract kdtree_query.

Implicit Types (buses : list Bus) (ppl : list Plant) (r : Plant)
         (c : string) (countries cs : list string).

Lemma NoDup_unique (l : list string) : NoDup (unique l).
Proof.
  induction l as [|a l IH]; simpl; [constructor|].
  apply NoDup_cons. split.
  - intros Hin%list_elem_of_In. apply filter_In in Hin as [_ Hne].
    by rewrite String.eqb_refl in Hne.
  - apply NoDup_ListNoDup, List.NoDup_filter, NoDup_ListNoDup, IH.
Qed.

Lemma In_cntries_without_ppl buses ppl c :
  In c (List.filter (fun c => negb (elem c (unique (map Country ppl))))
                    (unique (map country buses)))
  <-> In c (map country buses) /\ forall r, In r ppl -> Country r <> c.
Proof.
  rewrite filter_In, negb_true_iff, In_unique.
  rewrite <- not_true_iff_false, elem_In, In_unique.
  split.
  - intros [Hin Hno]. split; [done|].
    intros r Hr Hc. apply Hno. rewrite <- Hc. by apply in_map.
  - intros [Hin Hno]. split; [done|].
    intros (r & Hc & Hr)%in_map_iff. by apply (Hno r).
Qed.

Lemma matched_row_same_but_bus buses countries r :
  same_but_bus r (matched_row kdtree_query buses countries r).
Proof.
  unfold matched_row, same_but_bus.
  destruct (elem (Country r) countries); simpl; tauto.
Qed.

Lemma matched_row_outside buses countries r :
  ~ In (Country r) countries ->
  matched_row kdtree_query buses countries r = r.
Proof.
  intros Hout. unfold matched_row.
  destruct (elem (Country r) countries) eqn:Hin; [|done].
  by apply elem_In in Hin.
Qed.

Lemma matched_row_idempotent buses countries r :
  matched_row kdtree_query buses countries
    (matched_row kdtree_query buses countries r)
  = matched_row kdtree_query buses countries r.
Proof.
  unfold matched_row.
  destruct (elem (Country r) countries) eqn:Hin; simpl; by rewrite Hin.
Qed.


(** What a run of the matching stage that returns has returned. *)
Lemma attach_buses_inv buses bus_column ppl ppl' ws :
  attach_buses kdtree_query buses bus_column ppl = Some (ppl', ws) ->
  ppl' = map (matched_row kdtree_query buses (unique (map country buses))) ppl
  /\ ws
     = match List.filter
               (fun c => negb (elem c (unique (map Country ppl))))
               (unique (map country buses)) with
       | [] => []
       | c :: cs => [NoPowerplantsKnown (c :: cs)]
       end
       ++ (if existsb bus_isnull ppl'
           then [NoCloseBus (length (List.filter bus_isnull ppl'))]
           else [])
  /\ (bus_column = true \/ buses <> []).
Proof.
  unfold attach_buses.
  rewrite (match_countries_rows kdtree_query kdtree_ok). simpl.
  destruct (match unique (map country buses) with
            | [] => bus_column
            | _ :: _ => true
            end) eqn:Hhas; [|done].
  intros [= <- <-]. split; [done|]. split.
  - f_equal.
    + by destruct (List.filter _ _).
    + by rewrite existsb_id_map, length_filter_id_map.
  - destruct buses; [by left | by right].
Qed.


Lemma In_NoPowerplantsKnown (cs0 : list string) (w2 : list warning) cs :
  (forall cs', ~ In (NoPowerplantsKnown cs') w2) ->
  In (NoPowerplantsKnown cs)
     (match cs0 with
      | [] => []
      | c :: cs1 => [NoPowerplantsKnown (c :: cs1)]
      end ++ w2)
  <-> cs = cs0 /\ cs0 <> [].
Proof.
  intros Hw2. rewrite in_app_iff. split.
  - intros [Hin | Hin]; [|by destruct (Hw2 cs)].
    destruct cs0 as [|c cs1]; [done|].
    destruct Hin as [[= <-] | []]. done.
  - intros [-> Hne]. left. destruct cs0 as [|c cs1]; [done | by left].
Qed.

Lemma untouched_columns_matched_row buses countries r :
  untouched_columns (matched_row kdtree_query buses countries r)
  = untouched_columns r.
Proof.
  unfold matched_row. by destruct (elem (Country r) countries).
Qed.

End MatchingMore.

Section ScriptMore.
Implicit Types (cfg : Config) (buses : list Bus) (ppl db custom : list Plant).

Lemma untouched_columns_correct_row r :
  untouched_columns (correct_row r) = untouched_columns r.
Proof.
  destruct (correct_row_frame r)
    as [(_ & Hn & Hf & Ht & Hc & Hlat & Hlon & _ & Hoth) _].
  unfold untouched_columns. by rewrite Hn, Hf, Ht, Hc, Hlat, Hlon, Hoth.
Qed.


End ScriptMore.

(** X12.  The matching stage writes the column bus only, and only in the
    rows whose country is a country of the network: every row keeps its
    position, its label and all its other columns, and a row of a country
    outside the network is returned as it came, with the bus the custom
    file gave it, if any. *)
Theorem attach_buses_writes_bus_only
    (kdtree_query : list (Q * Q) -> option Q * option Q -> nat)
    (buses : list Bus) (bus_column : bool) (ppl ppl' : list Plant)
    (ws : list warning) :
  kdtree_contract kdtree_query ->
  attach_buses kdtree_query buses bus_column ppl = Some (ppl', ws) ->
  Forall2
    (fun r r' =>
       same_but_bus r r'
       /\ (~ In (Country r) (map country buses) -> r' = r))
    ppl ppl'.
Proof.
  intros Hok (-> & _ & _)%(attach_buses_inv kdtree_query Hok).
  apply Forall2_map_diag. intros r. split.
  - apply matched_row_same_but_bus.
  - intros Hout. apply matched_row_outside. by rewrite In_unique.
Qed.

Lemma attach_buses_writes_bus_only_witness :
  kdtree_contract scan_query
  /\ attach_buses scan_query [S1; S4] false
       [plant_at "FR" (Some (5 # 1)) (Some (45 # 1));
        set_bus (Some "B7") (plant_at "PL" None None)]
     = Some ([set_bus (Some "S1") (plant_at "FR" (Some (5 # 1)) (Some (45 # 1)));
              set_bus (Some "B7") (plant_at "PL" None None)],
             [NoPowerplantsKnown ["ES"]])
  /\ Forall2
       (fun r r' =>
          same_but_bus r r'
          /\ (~ In (Country r) (map country [S1; S4]) -> r' = r))
       [plant_at "FR" (Some (5 # 1)) (Some (45 # 1));
        set_bus (Some "B7") (plant_at "PL" None None)]
       [set_bus (Some "S1") (plant_at "FR" (Some (5 # 1)) (Some (45 # 1)));
        set_bus (Some "B7") (plant_at "PL" None None)].
Proof.
  assert (Hrun :
    attach_buses scan_query [S1; S4] false
      [plant_at "FR" (Some (5 # 1)) (Some (45 # 1));
       set_bus (Some "B7") (plant_at "PL" None None)]
    = Some ([set_bus (Some "S1") (plant_at "FR" (Some (5 # 1)) (Some (45 # 1)));
             set_bus (Some "B7") (plant_at "PL" None None)],
            [NoPowerplantsKnown ["ES"]])) by reflexivity.
  split; [exact scan_query_contract|]. split; [exact Hrun|].
  exact (attach_buses_writes_bus_only scan_query [S1; S4] false _ _ _
           scan_query_contract Hrun).
Defined.

(** X13.  The matching stage is idempotent: run again on the table it
    returned (which has the column bus), it returns the same table and
    issues the same warnings. *)
Theorem attach_buses_idempotent
    (kdtree_query : list (Q * Q) -> option Q * option Q -> nat)
    (buses : list Bus) (bus_column : bool) (ppl ppl' : list Plant)
    (ws : list warning) :
  kdtree_contract kdtree_query ->
  attach_buses kdtree_query buses bus_column ppl = Some (ppl', ws) ->
  attach_buses kdtree_query buses true ppl' = Some (ppl', ws).
Proof.
  intros Hok (Hppl & Hws & _)%(attach_buses_inv kdtree_query Hok).
  destruct (attach_buses_rows kdtree_query Hok buses true ppl')
    as (ws' & Hrun & Hws'); [by left|].
  assert (Hfix :
    map (matched_row kdtree_query buses (unique (map country buses))) ppl'
    = ppl').
  { rewrite Hppl, map_map. apply map_ext. intros r.
    apply matched_row_idempotent. }
  assert (Hcountry : map Country ppl' = map Country ppl).
  { rewrite Hppl, map_map. apply map_ext. intros r.
    by destruct (matched_row_same_but_bus kdtree_query buses
                   (unique (map country buses)) r) as (_ & _ & _ & _ & -> & _). }
  rewrite Hfix in Hrun, Hws'. rewrite Hcountry in Hws'.
  rewrite Hrun. f_equal. f_equal. by rewrite Hws, Hws'.
Qed.

Lemma attach_buses_idempotent_witness :
  kdtree_contract scan_query
  /\ attach_buses scan_query [S1; S4] false
       [plant_at "FR" (Some (5 # 1)) (Some (45 # 1)); plant_at "ES" None None]
     = Some ([set_bus (Some "S1") (plant_at "FR" (Some (5 # 1)) (Some (45 # 1)));
              plant_at "ES" None None],
             [NoCloseBus 1])
  /\ attach_buses scan_query [S1; S4] true
       [set_bus (Some "S1") (plant_at "FR" (Some (5 # 1)) (Some (45 # 1)));
        plant_at "ES" None None]
     = Some ([set_bus (Some "S1") (plant_at "FR" (Some (5 # 1)) (Some (45 # 1)));
              plant_at "ES" None None],
             [NoCloseBus 1]).
Proof.
  assert (Hrun :
    attach_buses scan_query [S1; S4] false
      [plant_at "FR" (Some (5 # 1)) (Some (45 # 1)); plant_at "ES" None None]
    = Some ([set_bus (Some "S1") (plant_at "FR" (Some (5 # 1)) (Some (45 # 1)));
             plant_at "ES" None None],
            [NoCloseBus 1])) by reflexivity.
  split; [exact scan_query_contract|]. split; [exact Hrun|].
  exact (attach_buses_idempotent scan_query [S1; S4] false _ _ _
           scan_query_contract Hrun).
Defined.



(** X15.  The warning "No powerplants known in" is issued exactly when
    some country of the network has no row in the table that enters the
    matching stage; it is issued once, and it lists, each once, exactly
    the countries of the network without a row. *)
Theorem no_powerplants_known_warning
    (kdtree_query : list (Q * Q) -> option Q * option Q -> nat)
    (buses : list Bus) (bus_column : bool) (ppl ppl' : list Plant)
    (ws : list warning) :
  kdtree_contract kdtree_query ->
  attach_buses kdtree_query buses bus_column ppl = Some (ppl', ws) ->
  ((exists cs, In (NoPowerplantsKnown cs) ws)
   <-> exists c, In c (map country buses)
                 /\ forall r, In r ppl -> Country r <> c)
  /\ (forall cs cs',
        In (NoPowerplantsKnown cs) ws -> In (NoPowerplantsKnown cs') ws ->
        cs = cs')
  /\ (forall cs,
        In (NoPowerplantsKnown cs) ws ->
        NoDup cs
        /\ forall c,
             In c cs
             <-> In c (map country buses)
                 /\ forall r, In r ppl -> Country r <> c).
Proof.
  intros Hok (_ & -> & _)%(attach_buses_inv kdtree_query Hok).
  set (cs0 := List.filter (fun c => negb (elem c (unique (map Country ppl))))
                          (unique (map country buses))).
  assert (Hin : forall cs,
            In (NoPowerplantsKnown cs)
               (match cs0 with
                | [] => []
                | c :: cs1 => [NoPowerplantsKnown (c :: cs1)]
                end
                ++ (if existsb bus_isnull ppl'
                    then [NoCloseBus (length (List.filter bus_isnull ppl'))]
                    else []))
            <-> cs = cs0 /\ cs0 <> []).
  { intros cs. apply In_NoPowerplantsKnown.
    intros cs'. destruct (existsb bus_isnull ppl'); [|by intros []].
    by intros [? | []]. }
  split; [|split].
  - split.
    + intros (cs & [-> Hne]%Hin).
      destruct cs0 as [|c cs1] eqn:Hcs0; [done|].
      exists c. apply In_cntries_without_ppl. fold cs0. rewrite Hcs0. by left.
    + intros (c & Hc%In_cntries_without_ppl). fold cs0 in Hc.
      exists cs0. apply Hin. split; [done|]. by destruct cs0.
  - intros cs cs' [-> _]%Hin [-> _]%Hin. done.
  - intros cs [-> _]%Hin. split.
    + apply NoDup_ListNoDup, List.NoDup_filter, NoDup_ListNoDup, NoDup_unique.
    + intros c. apply In_cntries_without_ppl.
Qed.

Lemma no_powerplants_known_warning_witness :
  kdtree_contract scan_query
  /\ attach_buses scan_query [S1; S3; S2; S4] false
       [plant_at "DE" (Some (5 # 1)) (Some (45 # 1))]
     = Some ([set_bus (Some "S3") (plant_at "DE" (Some (5 # 1)) (Some (45 # 1)))],
             [NoPowerplantsKnown ["FR"; "ES"]])
  /\ ((exists cs, In (NoPowerplantsKnown cs) [NoPowerplantsKnown ["FR"; "ES"]])
      <-> exists c, In c (map country [S1; S3; S2; S4])
                    /\ forall r,
                         In r [plant_at "DE" (Some (5 # 1)) (Some (45 # 1))] ->
                         Country r <> c)
  /\ (forall cs cs',
        In (NoPowerplantsKnown cs) [NoPowerplantsKnown ["FR"; "ES"]] ->
        In (NoPowerplantsKnown cs') [NoPowerplantsKnown ["FR"; "ES"]] ->
        cs = cs')
  /\ (forall cs,
        In (NoPowerplantsKnown cs) [NoPowerplantsKnown ["FR"; "ES"]] ->
        NoDup cs
        /\ forall c,
             In c cs
             <-> In c (map country [S1; S3; S2; S4])
                 /\ forall r,
                      In r [plant_at "DE" (Some (5 # 1)) (Some (45 # 1))] ->
                      Country r <> c).
Proof.
  assert (Hrun :
    attach_buses scan_query [S1; S3; S2; S4] false
      [plant_at "DE" (Some (5 # 1)) (Some (45 # 1))]
    = Some ([set_bus (Some "S3") (plant_at "DE" (Some (5 # 1)) (Some (45 # 1)))],
            [NoPowerplantsKnown ["FR"; "ES"]])) by reflexivity.
  split; [exact scan_query_contract|]. split; [exact Hrun|].
  exact (no_powerplants_known_warning scan_query [S1; S3; S2; S4] false _ _ _
           scan_query_contract Hrun).
Defined.

(** X16.  The warning "Couldn't find close bus for N powerplants" is
    issued exactly when some row of the final table has no bus, and its
    number is the number of the rows without a bus, the rows of countries
    outside the network included. *)
Theorem no_close_bus_warning
    (kdtree_query : list (Q * Q) -> option Q * option Q -> nat)
    (buses : list Bus) (bus_column : bool) (ppl ppl' : list Plant)
    (ws : list warning) :
  kdtree_contract kdtree_query ->
  attach_buses kdtree_query buses bus_column ppl = Some (ppl', ws) ->
  forall n,
    In (NoCloseBus n) ws
    <-> n = length (List.filter bus_isnull ppl') /\ 0 < n.
Proof.
  intros Hok (_ & -> & _)%(attach_buses_inv kdtree_query Hok) n.
  rewrite in_app_iff.
  pose proof (existsb_length_filter bus_isnull ppl') as Hex.
  split.
  - intros [Hin | Hin].
    + destruct (List.filter _ (unique _)); [done|].
      by destruct Hin as [? | []].
    + destruct (existsb bus_isnull ppl'); [|done].
      destruct Hin as [[= <-] | []]. split; [done|]. by apply Hex.
  - intros [-> Hpos]. right.
    apply Hex in Hpos. rewrite Hpos. by left.
Qed.

Lemma no_close_bus_warning_witness :
  kdtree_contract scan_query
  /\ attach_buses scan_query [S1] true
       [plant_at "FR" None (Some (45 # 1)); plant_at "PL" None None;
        set_bus (Some "B7") (plant_at "PL" None None)]
     = Some ([plant_at "FR" None (Some (45 # 1)); plant_at "PL" None None;
              set_bus (Some "B7") (plant_at "PL" None None)],
             [NoCloseBus 2])
  /\ forall n,
       In (NoCloseBus n) [NoCloseBus 2]
       <-> n = length (List.filter bus_isnull
                         [plant_at "FR" None (Some (45 # 1));
                          plant_at "PL" None None;
                          set_bus (Some "B7") (plant_at "PL" None None)])
           /\ 0 < n.
Proof.
  assert (Hrun :
    attach_buses scan_query [S1] true
      [plant_at "FR" None (Some (45 # 1)); plant_at "PL" None None;
       set_bus (Some "B7") (plant_at "PL" None None)]
    = Some ([plant_at "FR" None (Some (45 # 1)); plant_at "PL" None None;
             set_bus (Some "B7") (plant_at "PL" None None)],
            [NoCloseBus 2])) by reflexivity.
  split; [exact scan_query_contract|]. split; [exact Hrun|].
  exact (no_close_bus_warning scan_query [S1] true _ _ _
           scan_query_contract Hrun).
Defined.

(** X17.  A turn of the loop for a country without a row in the table
    returns the table as it is, whatever the index answers: no position
    is looked up and nothing is written. *)
Theorem match_country_without_plants
    (kdtree_query : list (Q * Q) -> option Q * option Q -> nat)
    (buses : list Bus) (ppl : list Plant) (c : string) :
  (forall r, In r ppl -> Country r <> c) ->
  match_country kdtree_query buses ppl c = Some ppl.
Proof.
  intros Hno. unfold match_country, query_index.
  rewrite query_from_none; [done|].
  intros r Hr. apply String.eqb_neq. by apply Hno.
Qed.

Lemma match_country_without_plants_witness :
  (forall r, In r [plant_at "FR" None None] -> Country r <> "DE")
  /\ match_country (fun _ _ => 7) [S1; S3] [plant_at "FR" None None] "DE"
     = Some [plant_at "FR" None None].
Proof.
  assert (Hno : forall r, In r [plant_at "FR" None None] -> Country r <> "DE").
  { intros r [<- | []]. discriminate. }
  split; [exact Hno|].
  exact (match_country_without_plants (fun _ _ => 7) [S1; S3]
           [plant_at "FR" None None] "DE" Hno).
Defined.


(** X19.  The rows of the final table are the rows of the database that
    pass the two filters followed by the admitted rows of the custom
    file, in this order: no stage after the filters drops, adds or moves
    a row, and name, fuel, technology, country, coordinates and the
    columns the script does not look at are as the chain on the database
    and the custom file gave them. *)
Theorem build_powerplants_rows
    (kdtree_query : list (Q * Q) -> option Q * option Q -> nat)
    (cfg : Config) (buses : list Bus) (db custom : list Plant)
    (custom_bus_column : bool) (ppl : list Plant) (out : list string)
    (ws : list warning) :
  kdtree_contract kdtree_query ->
  build_powerplants kdtree_query cfg buses db custom custom_bus_column
  = Some (ppl, out, ws) ->
  map untouched_columns ppl
  = map untouched_columns
        (base_rows cfg buses db
         ++ custom_rows (custom_powerplants cfg) custom)
  /\ length ppl
     = length (base_rows cfg buses db)
       + length (custom_rows (custom_powerplants cfg) custom).
Proof.
  intros Hok Hrun.
  assert (Hrows :
    map untouched_columns ppl
    = map untouched_columns
          (base_rows cfg buses db
           ++ custom_rows (custom_powerplants cfg) custom)).
  { unfold build_powerplants in Hrun.
    destruct (prepare cfg buses db custom) as [[prepared out']|] eqn:Hprep;
      [|done].
    cbn [mbind option_bind fst snd] in Hrun.
    destruct (attach_buses kdtree_query buses _ prepared)
      as [[matched ws']|] eqn:Hmatch; [|done].
    cbn [mbind option_bind fst snd] in Hrun. injection Hrun as <- _ _.
    apply prepare_inv in Hprep as (merged & Hmerge & ->).
    apply (attach_buses_inv kdtree_query Hok) in Hmatch as (-> & _ & _).
    rewrite add_custom_powerplants_Some in Hmerge. injection Hmerge as <-.
    rewrite !map_map.
    rewrite (map_ext _ untouched_columns)
      by (intros r; by rewrite untouched_columns_matched_row,
                               untouched_columns_correct_row).
    destruct (custom_powerplants cfg); simpl custom_rows.
    - by rewrite app_nil_r.
    - by apply map_reset_index.
    - by apply map_reset_index. }
  split; [exact Hrows|].
  apply (f_equal (@length _)) in Hrows.
  by rewrite !length_map, length_app in Hrows.
Qed.

Lemma build_powerplants_rows_witness :
  kdtree_contract scan_query
  /\ build_powerplants scan_query (mkConfig CfgFalsy CfgTrue) [S1]
       [fessenheim; set_Fueltype (Some "Wind") coal_plant] [coal_plant] false
     = Some ([set_bus (Some "S1") (correct_row (normalize (set_index 0 fessenheim)));
              set_bus (Some "S1") (set_index 1 coal_plant)],
             snd (correct_nuclear_data
                    [normalize (set_index 0 fessenheim);
                     set_index 1 coal_plant]),
             [])
  /\ map untouched_columns
       [set_bus (Some "S1") (correct_row (normalize (set_index 0 fessenheim)));
        set_bus (Some "S1") (set_index 1 coal_plant)]
     = map untouched_columns
           (base_rows (mkConfig CfgFalsy CfgTrue) [S1]
              [fessenheim; set_Fueltype (Some "Wind") coal_plant]
            ++ custom_rows (custom_powerplants (mkConfig CfgFalsy CfgTrue))
                 [coal_plant])
  /\ length
       [set_bus (Some "S1") (correct_row (normalize (set_index 0 fessenheim)));
        set_bus (Some "S1") (set_index 1 coal_plant)]
     = length (base_rows (mkConfig CfgFalsy CfgTrue) [S1]
                 [fessenheim; set_Fueltype (Some "Wind") coal_plant])
       + length (custom_rows (custom_powerplants (mkConfig CfgFalsy CfgTrue))
                   [coal_plant]).
Proof.
  assert (Hrun :
    build_powerplants scan_query (mkConfig CfgFalsy CfgTrue) [S1]
      [fessenheim; set_Fueltype (Some "Wind") coal_plant] [coal_plant] false
    = Some ([set_bus (Some "S1") (correct_row (normalize (set_index 0 fessenheim)));
             set_bus (Some "S1") (set_index 1 coal_plant)],
            snd (correct_nuclear_data
                   [normalize (set_index 0 fessenheim);
                    set_index 1 coal_plant]),
            [])) by (vm_compute; reflexivity).
  split; [exact scan_query_contract|]. split; [exact Hrun|].
  exact (build_powerplants_rows scan_query (mkConfig CfgFalsy CfgTrue) [S1]
           [fessenheim; set_Fueltype (Some "Wind") coal_plant] [coal_plant]
           false _ _ _ scan_query_contract Hrun).
Defined.


